(** * Storage: the recording store of the ECG device (src/storage.cpp)

    A shallow embedding of [Storage], the state machine that mediates every
    access to the SD card, together with a model of the card driver it calls
    (the Arduino [SD] and [File] objects), and the properties of the store
    that the specification states. *)

From Stdlib Require Import ZArith Lia Strings.Byte Ascii String.
From stdpp Require Import gmap strings list.

Local Open Scope Z_scope.

(** ** Error and state enumerations (storage.cpp:8-40)

    The two [enum class]es are declared in storage.h, which is not among the
    sources; their enumerators are those of the [switch] statements of
    [storage_error_to_str] and [storage_state_to_str]. *)

(** [StorageError::None] is spelled [NoError]: [None] is taken by [option]. *)
Inductive StorageError :=
  | NoError
  | CanNotInitialize
  | CanNotOpenFile
  | CanNotRemoveFile
  | FileSystemError
  | TooManyFiles.

Inductive StorageState := Idle | Error | Recording | Reading.

Definition storage_error_to_str (error : StorageError) : string :=
  match error with
  | NoError => "None"
  | CanNotInitialize => "CanNotInitialize"
  | CanNotOpenFile => "CanNotOpenFile"
  | CanNotRemoveFile => "CanNotRemoveFile"
  | FileSystemError => "FileSystemError"
  | TooManyFiles => "TooManyFiles"
  end.

Definition storage_state_to_str (state : StorageState) : string :=
  match state with
  | Idle => "Idle"
  | Error => "Error"
  | Recording => "Recording"
  | Reading => "Reading"
  end.

Definition state_eqb (a b : StorageState) : bool :=
  match a, b with
  | Idle, Idle | Error, Error | Recording, Recording | Reading, Reading => true
  | _, _ => false
  end.

(** ** Bytes and single-precision values

    The store never computes with a [float]: it copies the object
    representation, [sizeof(float) = 4] bytes per element, to and from the
    file.  A value is therefore modelled by these four bytes, in the order
    they lie in memory. *)

Record float32 := F32 { fb0 : byte; fb1 : byte; fb2 : byte; fb3 : byte }.

(** [(const uint8_t* ) data]: the bytes of a [float] array. *)
Fixpoint bytes_of_floats (data : list float32) : list byte :=
  match data with
  | [] => []
  | F32 a b c d :: rest => a :: b :: c :: d :: bytes_of_floats rest
  end.

(** The [float] array that a byte buffer holds (an incomplete tail is not an
    element). *)
Fixpoint floats_of_bytes (bs : list byte) : list float32 :=
  match bs with
  | a :: b :: c :: d :: rest => F32 a b c d :: floats_of_bytes rest
  | _ => []
  end.

(** Value of a [uint8_t] as a C [int]. *)
Definition int_of_byte (b : byte) : Z := Z.of_N (Byte.to_N b).

(** ** The card driver

    [SD] and [File] belong to the Arduino core, not to this repository; they
    are the collaborator of section 6 of the specification.  The model keeps
    what the store can observe: a tree of paths, handles that carry a path, a
    mode and a read position, and the result of each call, with the result
    types the store tests ([bool], [int] with [-1], [size_t] counts).
    Whether the hardware serves a call is not determined by the tree, so each
    public operation of the store receives an [Env] that fixes the outcome of
    the driver calls made during it; no operation makes the same fallible
    call twice.  The medium also keeps the sequence of driver calls made so
    far, so that "no medium access" can be stated. *)

Module SD.

Inductive Node := Dir | Reg (content : list byte).

Inductive Mode := FILE_READ | FILE_WRITE.

(** A valid [File]; the invalid one ([!file]) is [None : option File]. *)
Record File := { f_path : string; f_mode : Mode; f_pos : nat }.

(** The driver calls, recorded in the order they are made. *)
Inductive Call :=
  | CBegin
  | CExists (path : string)
  | CMkdir (path : string)
  | CRemove (path : string)
  | COpen (path : string) (mode : Mode)
  | COpenNextFile (path : string)
  | CPeek (path : string)
  | CReadByte (path : string)
  | CRead (path : string) (size : nat)
  | CWriteByte (path : string) (b : byte)
  | CWrite (path : string) (size : nat)
  | CClose (path : string).

Record Medium := { fs : gmap string Node; calls : list Call }.

Record Env := {
  begin_ok : bool;       (* SD.begin mounts the card *)
  mkdir_ok : bool;
  remove_ok : bool;
  open_ok : bool;        (* SD.open yields a valid File *)
  write_byte_ok : bool;  (* File::write(uint8_t) returns 1 *)
  write_max : nat;       (* File::write(buf, n) takes at most this many bytes *)
  peek_ok : bool;
  read_byte_ok : bool;
  read_max : nat         (* File::read(buf, n) delivers at most this many bytes *)
}.

Record DirEntry := { e_name : string; e_is_dir : bool; e_size : nat }.

Definition log (c : Call) (m : Medium) : Medium :=
  {| fs := fs m; calls := calls m ++ [c] |}.

Definition put (p : string) (n : Node) (m : Medium) : Medium :=
  {| fs := <[p := n]> (fs m); calls := calls m |}.

Definition content (m : Medium) (p : string) : option (list byte) :=
  match fs m !! p with
  | Some (Reg c) => Some c
  | _ => None
  end.

Definition begin (e : Env) (m : Medium) : bool * Medium :=
  (begin_ok e, log CBegin m).

Definition exists_ (p : string) (m : Medium) : bool * Medium :=
  (bool_decide (is_Some (fs m !! p)), log (CExists p) m).

Definition mkdir (e : Env) (p : string) (m : Medium) : bool * Medium :=
  if mkdir_ok e then (true, put p Dir (log (CMkdir p) m))
  else (false, log (CMkdir p) m).

Definition remove (e : Env) (p : string) (m : Medium) : bool * Medium :=
  if remove_ok e
  then (true, {| fs := delete p (fs m); calls := calls m ++ [CRemove p] |})
  else (false, log (CRemove p) m).

(** [SD.open(path, mode)].  [FILE_WRITE] is ["w"] on this platform: the file
    is created, or emptied when it is there.  [FILE_READ] needs the path to
    exist. *)
Definition open (e : Env) (p : string) (mode : Mode) (m : Medium)
  : option File * Medium :=
  let m1 := log (COpen p mode) m in
  match mode with
  | FILE_WRITE =>
      match fs m !! p with
      | Some Dir => (None, m1)
      | _ =>
          if open_ok e
          then (Some {| f_path := p; f_mode := FILE_WRITE; f_pos := 0 |},
                put p (Reg []) m1)
          else (None, m1)
      end
  | FILE_READ =>
      if open_ok e && bool_decide (is_Some (fs m !! p))
      then (Some {| f_path := p; f_mode := FILE_READ; f_pos := 0 |}, m1)
      else (None, m1)
  end.

(** The bytes of [f] from its position on; none for a handle that cannot be
    read. *)
Definition pending (f : File) (m : Medium) : list byte :=
  match f_mode f, content m (f_path f) with
  | FILE_READ, Some c => drop (f_pos f) c
  | _, _ => []
  end.

Definition advance (n : nat) (f : File) : File :=
  {| f_path := f_path f; f_mode := f_mode f; f_pos := (f_pos f + n)%nat |}.

(** [File::peek()]: the next byte, or [-1]. *)
Definition peek (e : Env) (f : File) (m : Medium) : Z * Medium :=
  let m1 := log (CPeek (f_path f)) m in
  match pending f m with
  | b :: _ => if peek_ok e then (int_of_byte b, m1) else (-1, m1)
  | [] => (-1, m1)
  end.

(** [File::read()]: consumes the next byte, or [-1]. *)
Definition read_byte (e : Env) (f : File) (m : Medium) : Z * File * Medium :=
  let m1 := log (CReadByte (f_path f)) m in
  match pending f m with
  | b :: _ =>
      if read_byte_ok e then (int_of_byte b, advance 1 f, m1) else (-1, f, m1)
  | [] => (-1, f, m1)
  end.

(** [File::read(buf, size)]: the bytes delivered; their number is the
    call's result. *)
Definition read (e : Env) (f : File) (size : nat) (m : Medium)
  : list byte * File * Medium :=
  let got := take (Nat.min size (read_max e)) (pending f m) in
  (got, advance (length got) f, log (CRead (f_path f) size) m).

(** What a write appends: nothing unless the handle writes a regular file. *)
Definition append (f : File) (bs : list byte) (m : Medium) : nat * Medium :=
  match f_mode f, content m (f_path f) with
  | FILE_WRITE, Some c => (length bs, put (f_path f) (Reg (c ++ bs)) m)
  | _, _ => (0%nat, m)
  end.

(** [File::write(uint8_t)]: the number of bytes written, 0 or 1. *)
Definition write_byte (e : Env) (f : File) (b : byte) (m : Medium)
  : nat * Medium :=
  let m1 := log (CWriteByte (f_path f) b) m in
  if write_byte_ok e then append f [b] m1 else (0%nat, m1).

(** [File::write(buf, size)]: the number of bytes written. *)
Definition write (e : Env) (f : File) (buf : list byte) (m : Medium)
  : nat * Medium :=
  append f (take (write_max e) buf) (log (CWrite (f_path f) (length buf)) m).

Definition close (f : File) (m : Medium) : Medium :=
  log (CClose (f_path f)) m.

(** Direct children of a directory, as [openNextFile] reports them: the
    entry's name is its full path. *)
Definition is_child (dir p : string) : bool :=
  let pre := (dir +:+ "/")%string in
  String.prefix pre p
  && negb (String.eqb p pre)
  && negb (bool_decide
             ("/"%char ∈ drop (String.length pre) (list_ascii_of_string p))).

Definition entry_of (pn : string * Node) : DirEntry :=
  match pn.2 with
  | Dir => {| e_name := pn.1; e_is_dir := true; e_size := 0 |}
  | Reg c => {| e_name := pn.1; e_is_dir := false; e_size := length c |}
  end.

Definition entries (dir : string) (m : Medium) : list DirEntry :=
  entry_of <$> filter (λ pn, is_child dir pn.1 = true) (map_to_list (fs m)).

End SD.

(** ** The store (storage.h) *)

Record StorageEntry := { get_name : string; get_size : nat }.

(** Modelled from the spec: the data members of [Storage] are declared in
    storage.h, which is not among the sources.  Their names are those used in
    storage.cpp, their meaning that of section 3 of the specification:
    [_last_file_index] is the cursor [nextIndex], an integer counter (the
    loop of [create_new_recording] copies it to an [int]); [Storage] keeps it
    between 0 and 10000 (lemma [cursor_bounded]), so no wrap-around is
    modelled.  The references [_spi] and [_spi_mutex] carry no state of the
    store and are left out. *)
Record Storage := {
  _state : StorageState;
  _error : StorageError;
  _current_file : option SD.File;
  _current_recording_name : string;
  _last_file_index : Z
}.

Definition with_state (st : StorageState) (s : Storage) : Storage :=
  {| _state := st; _error := _error s; _current_file := _current_file s;
     _current_recording_name := _current_recording_name s;
     _last_file_index := _last_file_index s |}.

Definition with_error (err : StorageError) (s : Storage) : Storage :=
  {| _state := _state s; _error := err; _current_file := _current_file s;
     _current_recording_name := _current_recording_name s;
     _last_file_index := _last_file_index s |}.

Definition with_file (f : option SD.File) (s : Storage) : Storage :=
  {| _state := _state s; _error := _error s; _current_file := f;
     _current_recording_name := _current_recording_name s;
     _last_file_index := _last_file_index s |}.

Definition with_name (n : string) (s : Storage) : Storage :=
  {| _state := _state s; _error := _error s; _current_file := _current_file s;
     _current_recording_name := n;
     _last_file_index := _last_file_index s |}.

Definition with_index (i : Z) (s : Storage) : Storage :=
  {| _state := _state s; _error := _error s; _current_file := _current_file s;
     _current_recording_name := _current_recording_name s;
     _last_file_index := i |}.

(** Modelled from the spec: the member initialisers of storage.h, which is not
    among the sources.  A fresh store has no error, no open file, no current
    name and starts numbering at 0 (section 8: the first recording of a fresh
    store is "00000").  The initial [_state] is overwritten by [init] on every
    path. *)
Definition fresh : Storage :=
  {| _state := Error; _error := NoError; _current_file := None;
     _current_recording_name := EmptyString; _last_file_index := 0 |}.

(** ** Lifecycle and error model (storage.cpp:91-134) *)

Definition set_error (error : StorageError) (s : Storage) : Storage :=
  with_error error (with_state Error s).

Definition get_error (s : Storage) : StorageError := _error s.

Definition init (e : SD.Env) (s : Storage) (m : SD.Medium)
  : bool * Storage * SD.Medium :=
  let (mounted, m1) := SD.begin e m in
  if negb mounted then (false, set_error CanNotInitialize s, m1)
  else
    let (found, m2) := SD.exists_ "/recordings" m1 in
    if negb found then
      let (made, m3) := SD.mkdir e "/recordings" m2 in
      if negb made then (false, set_error FileSystemError s, m3)
      else (true, with_state Idle s, m3)
    else (true, with_state Idle s, m2).

(** [Storage::Storage]: a failed first [init] is only reported. *)
Definition construct (e : SD.Env) (m : SD.Medium) : Storage * SD.Medium :=
  let '(_, s, m1) := init e fresh m in (s, m1).

Definition clear_error (e : SD.Env) (s : Storage) (m : SD.Medium)
  : bool * Storage * SD.Medium :=
  let '(ok, s1, m1) := init e s m in
  if negb ok then (false, s1, m1)
  else (true, with_error NoError (with_state Idle s1), m1).

(** ** Enumeration (storage.cpp:136-180) *)

Definition to_lower (c : ascii) : ascii :=
  let n := nat_of_ascii c in
  if (65 <=? n)%nat && (n <=? 90)%nat then ascii_of_nat (n + 32) else c.

Fixpoint lower (s : string) : string :=
  match s with
  | EmptyString => EmptyString
  | String c r => String (to_lower c) (lower r)
  end.

(** [strcasecmp(a, b) == 0] *)
Definition strcasecmp_eq (a b : string) : bool := String.eqb (lower a) (lower b).

(** The body of the [while (entry)] loop: the entry's contribution to
    [recordings]. *)
Definition recording_of_entry (entry : SD.DirEntry) : list StorageEntry :=
  if negb (SD.e_is_dir entry) then
    let entry_name := SD.e_name entry in
    if String.prefix "/recordings/" entry_name then
      let entry_name := String.substring 12 (String.length entry_name - 12) entry_name in
      let entry_name_len := String.length entry_name in
      if (4 <=? entry_name_len)%nat
         && strcasecmp_eq (String.substring (entry_name_len - 4) 4 entry_name) ".rec"
      then [ {| get_name := String.substring 0 (entry_name_len - 4) entry_name;
                get_size := SD.e_size entry |} ]
      else []
    else []
  else [].

(** The driver calls of the loop: a first [openNextFile], then per entry its
    [close] and the next [openNextFile], then the [close] of the directory. *)
Definition log_iteration (es : list SD.DirEntry) (m : SD.Medium) : SD.Medium :=
  {| SD.fs := SD.fs m;
     SD.calls :=
       SD.calls m
       ++ [SD.COpenNextFile "/recordings"]
       ++ (es ≫= λ entry,
             [SD.CClose (SD.e_name entry); SD.COpenNextFile "/recordings"])
       ++ [SD.CClose "/recordings"] |}.

Definition list_recordings (e : SD.Env) (s : Storage) (m : SD.Medium)
  : list StorageEntry * Storage * SD.Medium :=
  if negb (state_eqb (_state s) Idle) then ([], s, m)
  else
    let (dir, m1) := SD.open e "/recordings" SD.FILE_READ m in
    match dir with
    | None => ([], set_error CanNotOpenFile s, m1)
    | Some _ =>
        let es := SD.entries "/recordings" m1 in
        (es ≫= recording_of_entry, s, log_iteration es m1)
    end.

(** ** Paths and names (storage.cpp:182-187, 215-221) *)

Definition build_recording_path (name : string) : string :=
  ("/recordings/" +:+ name +:+ ".rec")%string.

Definition digit (n : Z) : ascii := ascii_of_nat (48 + Z.to_nat (n mod 10)).

(** Decimal digits of [n >= 0], most significant first, in front of [acc]. *)
Fixpoint decimal (fuel : nat) (n : Z) (acc : string) : string :=
  match fuel with
  | O => acc
  | S k =>
      let acc := String (digit n) acc in
      if n <? 10 then acc else decimal k (n / 10) acc
  end.

Definition decimal_of (n : Z) : string :=
  decimal (S (Z.to_nat (Z.log2 n))) n EmptyString.

Fixpoint zeros (n : nat) : string :=
  match n with
  | O => EmptyString
  | S k => String "0" (zeros k)
  end.

Definition zero_pad (width : nat) (s : string) : string :=
  (zeros (width - String.length s) +:+ s)%string.

(** The conversion ["%05d"]. *)
Definition fmt_05d (i : Z) : string :=
  if i <? 0 then String "-" (zero_pad 4 (decimal_of (- i)))
  else zero_pad 5 (decimal_of i).

(** [snprintf(buf, size, ...)] keeps at most [size - 1] characters. *)
Definition snprintf (size : nat) (s : string) : string :=
  String.substring 0 (Nat.min (size - 1) (String.length s)) s.

Definition recording_name_of (i : Z) : string := snprintf 6 (fmt_05d i).

Definition recording_path_of (i : Z) : string :=
  snprintf 22 ("/recordings/" +:+ recording_name_of i +:+ ".rec")%string.

(** ** Removal (storage.cpp:189-208) *)

Definition remove_recording (e : SD.Env) (name : string) (s : Storage) (m : SD.Medium)
  : bool * Storage * SD.Medium :=
  if negb (state_eqb (_state s) Idle) then (false, s, m)
  else
    let path := build_recording_path name in
    let (found, m1) := SD.exists_ path m in
    if found then
      let (removed, m2) := SD.remove e path m1 in
      if negb removed then (false, set_error CanNotRemoveFile s, m2)
      else (true, s, m2)
    else (false, s, m1).

(** ** Creation (storage.cpp:210-252) *)

(** The [for] loop over [i], with [n] iterations left: the first index whose
    file does not exist, if the loop finds one. *)
Fixpoint scan (n : nat) (i : Z) (m : SD.Medium) : option Z * SD.Medium :=
  match n with
  | O => (None, m)
  | S k =>
      let (found, m1) := SD.exists_ (recording_path_of i) m in
      if negb found then (Some i, m1) else scan k (i + 1) m1
  end.

(** The result is the [const char*]: [None] is [nullptr]. *)
Definition create_new_recording (e : SD.Env) (s : Storage) (m : SD.Medium)
  : option string * Storage * SD.Medium :=
  if negb (state_eqb (_state s) Idle) then (None, s, m)
  else
    let (new_file, m1) :=
      scan (Z.to_nat (10000 - _last_file_index s)) (_last_file_index s) m in
    match new_file with
    | None => (None, set_error TooManyFiles s, m1)
    | Some i =>
        let s1 := with_name (recording_name_of i) s in
        let (file, m2) := SD.open e (recording_path_of i) SD.FILE_WRITE m1 in
        let s2 := with_file file s1 in
        match file with
        | None => (None, set_error CanNotOpenFile s2, m2)
        | Some _ =>
            let s3 := with_state Recording s2 in
            (Some (_current_recording_name s3), s3, m2)
        end
    end.

(** ** Writing (storage.cpp:254-277) *)

(** [sizeof(float) * length] *)
Definition byte_count (length : Z) : nat := Z.to_nat (4 * length).

(** A valid handle is used; on the invalid one every driver call fails
    without reaching the card. *)
Definition write_record (e : SD.Env) (data : list float32) (length : byte)
                        (s : Storage) (m : SD.Medium)
  : bool * Storage * SD.Medium :=
  if negb (state_eqb (_state s) Recording) then (false, s, m)
  else if int_of_byte length =? 0 then (false, s, m)
  else
    match _current_file s with
    | None => (false, set_error FileSystemError s, m)
    | Some f =>
        let (n1, m1) := SD.write_byte e f length m in
        if (n1 =? 0)%nat then (false, set_error FileSystemError s, m1)
        else
          let buf := take (byte_count (int_of_byte length)) (bytes_of_floats data) in
          let (n2, m2) := SD.write e f buf m1 in
          if (n2 =? 0)%nat then (false, set_error FileSystemError s, m2)
          else (true, s, m2)
    end.

(** ** Opening for read (storage.cpp:279-299) *)

Definition open_recording (e : SD.Env) (name : string) (s : Storage) (m : SD.Medium)
  : bool * Storage * SD.Medium :=
  if negb (state_eqb (_state s) Idle) then (false, s, m)
  else
    let path := build_recording_path name in
    let (found, m1) := SD.exists_ path m in
    if found then
      let (file, m2) := SD.open e path SD.FILE_READ m1 in
      let s1 := with_file file s in
      match file with
      | Some _ => (true, with_state Reading s1, m2)
      | None => (false, s1, m2)
      end
    else (false, s, m1).

(** ** Reading (storage.cpp:301-339) *)

(** The caller's array after [bs] has been copied to its start. *)
Definition fill (data : list float32) (bs : list byte) : list float32 :=
  floats_of_bytes (bs ++ drop (length bs) (bytes_of_floats data)).

(** The results are the returned [int] and the caller's array [data]. *)
Definition read_record (e : SD.Env) (data : list float32) (length : byte)
                       (s : Storage) (m : SD.Medium)
  : Z * list float32 * Storage * SD.Medium :=
  if negb (state_eqb (_state s) Reading) then (0, data, s, m)
  else
    match _current_file s with
    | None => (0, data, s, m)
    | Some f =>
        let (data_length, m1) := SD.peek e f m in
        if data_length =? -1 then (0, data, s, m1)
        else if data_length >=? int_of_byte length then (- data_length, data, s, m1)
        else
          let '(data_length, f1, m2) := SD.read_byte e f m1 in
          let s1 := with_file (Some f1) s in
          if data_length =? -1 then (0, data, set_error FileSystemError s1, m2)
          else
            let '(got, f2, m3) := SD.read e f1 (byte_count data_length) m2 in
            let s2 := with_file (Some f2) s1 in
            let data := fill data got in
            if (List.length got =? 0)%nat
            then (0, data, set_error FileSystemError s2, m3)
            else (data_length, data, s2, m3)
    end.

(** ** Closing (storage.cpp:341-374) *)

Definition is_recording_open (s : Storage) : bool :=
  state_eqb (_state s) Recording || state_eqb (_state s) Reading.

(** [File::close()] on [_current_file]: the handle becomes invalid. *)
Definition close_current_file (s : Storage) (m : SD.Medium) : Storage * SD.Medium :=
  match _current_file s with
  | Some f => (with_file None s, SD.close f m)
  | None => (s, m)
  end.

Definition close_recording (s : Storage) (m : SD.Medium)
  : bool * Storage * SD.Medium :=
  match _state s with
  | Recording =>
      let (s1, m1) := close_current_file s m in
      let s2 := with_state Idle s1 in
      let s3 := with_index (_last_file_index s2 + 1) s2 in
      (true, with_name EmptyString s3, m1)
  | Reading =>
      let (s1, m1) := close_current_file s m in
      (true, with_state Idle s1, m1)
  | _ => (false, s, m)
  end.

(** ** The public operations as one transition function *)

Inductive Op :=
  | ClearError
  | ListRecordings
  | RemoveRecording (name : string)
  | CreateNewRecording
  | WriteRecord (data : list float32) (length : byte)
  | OpenRecording (name : string)
  | ReadRecord (data : list float32) (length : byte)
  | CloseRecording.

(** What an operation hands back to its caller. *)
Inductive Result :=
  | RBool (b : bool)
  | REntries (l : list StorageEntry)
  | RName (p : option string)
  | RCount (n : Z) (data : list float32).

Definition run (e : SD.Env) (op : Op) (s : Storage) (m : SD.Medium)
  : Result * Storage * SD.Medium :=
  match op with
  | ClearError => let '(r, s1, m1) := clear_error e s m in (RBool r, s1, m1)
  | ListRecordings => let '(r, s1, m1) := list_recordings e s m in (REntries r, s1, m1)
  | RemoveRecording name =>
      let '(r, s1, m1) := remove_recording e name s m in (RBool r, s1, m1)
  | CreateNewRecording =>
      let '(r, s1, m1) := create_new_recording e s m in (RName r, s1, m1)
  | WriteRecord data length =>
      let '(r, s1, m1) := write_record e data length s m in (RBool r, s1, m1)
  | OpenRecording name =>
      let '(r, s1, m1) := open_recording e name s m in (RBool r, s1, m1)
  | ReadRecord data length =>
      let '(r, d, s1, m1) := read_record e data length s m in (RCount r d, s1, m1)
  | CloseRecording => let '(r, s1, m1) := close_recording s m in (RBool r, s1, m1)
  end.

(** The states an operation accepts: the argument of its
    [STORAGE_CHECK_STATE], the two cases of the [switch] of
    [close_recording]; [clear_error] checks nothing. *)
Definition expects (op : Op) (st : StorageState) : bool :=
  match op with
  | ClearError => true
  | ListRecordings | RemoveRecording _ | CreateNewRecording | OpenRecording _ =>
      state_eqb st Idle
  | WriteRecord _ _ => state_eqb st Recording
  | ReadRecord _ _ => state_eqb st Reading
  | CloseRecording => state_eqb st Recording || state_eqb st Reading
  end.

(** The value that reports failure: [{}], [false], [nullptr], [0] (with the
    caller's array as it was). *)
Definition failure (op : Op) : Result :=
  match op with
  | ListRecordings => REntries []
  | CreateNewRecording => RName None
  | ReadRecord data _ => RCount 0 data
  | _ => RBool false
  end.

(** ** Notions used by the properties *)

(** The handle that a state needs: a file open for writing while recording,
    one open for reading while reading. *)
Definition handle_ok (s : Storage) : Prop :=
  match _state s with
  | Recording => ∃ f, _current_file s = Some f ∧ SD.f_mode f = SD.FILE_WRITE
  | Reading => ∃ f, _current_file s = Some f ∧ SD.f_mode f = SD.FILE_READ
  | Idle | Error => True
  end.

(** The cursor stays between 0 and 10000, and below 10000 while a recording
    is being written: the increment of [close_recording] cannot overflow. *)
Definition cursor_ok (s : Storage) : Prop :=
  0 ≤ _last_file_index s ≤ 10000
  ∧ (_state s = Recording → _last_file_index s < 10000).

(** The invariant as the specification has it: the handle is open exactly in
    the states [Recording] and [Reading]. *)
Definition open_iff_active (s : Storage) : Prop :=
  is_Some (_current_file s) ↔ is_recording_open s = true.

(** A card that serves the transfers of one call in full; 1020 bytes is the
    largest transfer the store asks for ([4 * 255]). *)
Definition healthy (e : SD.Env) : Prop :=
  SD.write_byte_ok e = true ∧ (1020 ≤ SD.write_max e)%nat ∧
  SD.peek_ok e = true ∧ SD.read_byte_ok e = true ∧ (1020 ≤ SD.read_max e)%nat.

(** Conversion of an element count to the [uint8_t] parameter. *)
Definition uint8_of_nat (n : nat) : byte :=
  default x00 (Byte.of_N (N.of_nat n mod 256)).





(** A 5-digit zero-padded decimal, written out digit by digit. *)
Definition five_digits (i : Z) : string :=
  String (digit (i / 10000)) (String (digit (i / 1000)) (String (digit (i / 100))
    (String (digit (i / 10)) (String (digit i) EmptyString)))).

(** Whether the recording file of index [i] is on the card, at the path the
    scan of [create_new_recording] tests; for [0 <= i < 10000] this is
    /recordings/<5 digits of i>.rec (lemma [taken_five_digits]). *)
Definition taken (m : SD.Medium) (i : Z) : Prop :=
  is_Some (SD.fs m !! recording_path_of i).

(** The check that the two [snprintf] calls give the 5-digit name and its
    path, for one index and for [n] indices from [i] on. *)
Definition name_checked (i : Z) : bool :=
  String.eqb (recording_name_of i) (five_digits i)
  && String.eqb (recording_path_of i) (build_recording_path (five_digits i)).

Fixpoint checked_from (n : nat) (i : Z) : bool :=
  match n with
  | O => true
  | S k => name_checked i && checked_from k (i + 1)
  end.

(** ** Concrete cards and stores used by the examples *)

(** A card that serves every call. *)
Definition good_card : SD.Env :=
  {| SD.begin_ok := true; SD.mkdir_ok := true; SD.remove_ok := true;
     SD.open_ok := true; SD.write_byte_ok := true; SD.write_max := 1020;
     SD.peek_ok := true; SD.read_byte_ok := true; SD.read_max := 1020 |}.

(** A card on which nothing succeeds. *)
Definition bad_card : SD.Env :=
  {| SD.begin_ok := false; SD.mkdir_ok := false; SD.remove_ok := false;
     SD.open_ok := false; SD.write_byte_ok := false; SD.write_max := 0;
     SD.peek_ok := false; SD.read_byte_ok := false; SD.read_max := 0 |}.

Definition medium_of (files : list (string * SD.Node)) : SD.Medium :=
  {| SD.fs := list_to_map (("/recordings", SD.Dir) :: files); SD.calls := [] |}.

Definition store (st : StorageState) (file : option SD.File) (name : string)
                 (index : Z) : Storage :=
  {| _state := st; _error := NoError; _current_file := file;
     _current_recording_name := name; _last_file_index := index |}.

Definition write_handle (name : string) : SD.File :=
  {| SD.f_path := build_recording_path name; SD.f_mode := SD.FILE_WRITE;
     SD.f_pos := 0 |}.

Definition read_handle (name : string) (pos : nat) : SD.File :=
  {| SD.f_path := build_recording_path name; SD.f_mode := SD.FILE_READ;
     SD.f_pos := pos |}.

(** ** Transfers served in full *)





(** ** Notions used by the further properties *)

(** The sticky error and the state agree: an error code is recorded exactly
    in state [Error]. *)
Definition error_matches_state (s : Storage) : Prop :=
  _state s = Error ↔ _error s ≠ NoError.

(** The value of a decimal digit character, and of a name of five of them
    (0 for any other string). *)
Definition digit_value (c : ascii) : Z := Z.of_nat (nat_of_ascii c) - 48.

Definition is_digit (c : ascii) : bool :=
  (48 <=? nat_of_ascii c)%nat && (nat_of_ascii c <=? 57)%nat.

Definition index_of_name (name : string) : Z :=
  match name with
  | String a (String b (String c (String d (String e EmptyString)))) =>
      if is_digit a && is_digit b && is_digit c && is_digit d && is_digit e
      then 10000 * digit_value a + 1000 * digit_value b + 100 * digit_value c
           + 10 * digit_value d + digit_value e
      else -1
  | _ => -1
  end.

(** The check that the name of an index denotes it, for [n] indices from [i]
    on. *)
Fixpoint decoded_from (n : nat) (i : Z) : bool :=
  match n with
  | O => true
  | S k => (index_of_name (recording_name_of i) =? i) && decoded_from k (i + 1)
  end.

(** A sequence of public operations, each with the card's behaviour during
    it. *)
Fixpoint run_all (ops : list (SD.Env * Op)) (s : Storage) (m : SD.Medium)
  : Storage * SD.Medium :=
  match ops with
  | [] => (s, m)
  | (e, op) :: ops' =>
      let '(_, s1, m1) := run e op s m in run_all ops' s1 m1
  end.

Definition is_remove (op : Op) : bool :=
  match op with
  | RemoveRecording _ => true
  | _ => false
  end.

(** ** Proof automation *)

(** Case analysis of one operation down to the driver's answers. *)
Ltac unfold_ops :=
  unfold run, clear_error, init, list_recordings, remove_recording,
    create_new_recording, write_record, open_recording, read_record,
    close_recording, close_current_file, set_error,
    SD.begin, SD.exists_, SD.mkdir, SD.remove, SD.open, SD.peek,
    SD.read_byte, SD.read, SD.write_byte, SD.write, SD.append in *.

Ltac op_cases :=
  unfold_ops; simpl in *;
  repeat (case_match; simpl in *; simplify_eq; try done; try congruence).

(** * Properties *)

(** ** Names and paths *)

Lemma checked_from_at (n : nat) : ∀ i k : Z,
  checked_from n i = true → i ≤ k < i + Z.of_nat n → name_checked k = true.
Proof.
  induction n as [|n IH]; intros i k H Hk; simpl in H; [lia|].
  apply andb_prop in H as [Hi Hrest].
  destruct (decide (k = i)) as [->|Hne]; [done|].
  apply (IH (i + 1)); [done | lia].
Qed.

Lemma names_checked : checked_from (Z.to_nat 10000) 0 = true.
Proof. vm_compute. reflexivity. Qed.

Lemma recording_name_five_digits (i : Z) :
  0 ≤ i < 10000 → recording_name_of i = five_digits i.
Proof.
  intros Hi. pose proof (checked_from_at _ 0 i names_checked) as H.
  apply andb_prop in H as [H _]; [by apply String.eqb_eq | lia].
Qed.

Lemma recording_path_five_digits (i : Z) :
  0 ≤ i < 10000 → recording_path_of i = build_recording_path (five_digits i).
Proof.
  intros Hi. pose proof (checked_from_at _ 0 i names_checked) as H.
  apply andb_prop in H as [_ H]; [by apply String.eqb_eq | lia].
Qed.

Lemma taken_five_digits (m : SD.Medium) (i : Z) :
  0 ≤ i < 10000 →
  taken m i ↔ is_Some (SD.fs m !! build_recording_path (five_digits i)).
Proof. intros Hi. unfold taken. by rewrite recording_path_five_digits. Qed.

(** ** The scan for a free name *)

Lemma scan_range (n : nat) : ∀ (i j : Z) (m m' : SD.Medium),
  scan n i m = (Some j, m') → i ≤ j < i + Z.of_nat n.
Proof.
  induction n as [|n IH]; intros i j m m' H; simpl in H; [done|].
  destruct (bool_decide _); simpl in H.
  - apply IH in H. lia.
  - simplify_eq. lia.
Qed.

Lemma scan_full (n : nat) : ∀ (i : Z) (m : SD.Medium),
  (∀ k, i ≤ k < i + Z.of_nat n → taken m k) →
  ∃ m', scan n i m = (None, m') ∧ SD.fs m' = SD.fs m.
Proof.
  induction n as [|n IH]; intros i m Hall; simpl.
  - by exists m.
  - rewrite bool_decide_eq_true_2 by (apply Hall; lia). simpl.
    destruct (IH (i + 1) (SD.log (SD.CExists (recording_path_of i)) m))
      as (m' & Hscan & Hfs).
    + intros k Hk. apply (Hall k). lia.
    + exists m'. by rewrite Hscan, Hfs.
Qed.

Lemma scan_first_gap (n : nat) : ∀ (i j : Z) (m : SD.Medium),
  i ≤ j < i + Z.of_nat n →
  ¬ taken m j →
  (∀ k, i ≤ k < j → taken m k) →
  ∃ m', scan n i m = (Some j, m') ∧ SD.fs m' = SD.fs m.
Proof.
  induction n as [|n IH]; intros i j m Hj Hfree Hbelow; simpl.
  - lia.
  - destruct (decide (i = j)) as [->|Hne].
    + rewrite bool_decide_eq_false_2 by exact Hfree. simpl. by eexists.
    + rewrite bool_decide_eq_true_2 by (apply Hbelow; lia). simpl.
      destruct (IH (i + 1) j (SD.log (SD.CExists (recording_path_of i)) m))
        as (m' & Hscan & Hfs).
      * lia.
      * exact Hfree.
      * intros k Hk. apply (Hbelow k). lia.
      * exists m'. by rewrite Hscan, Hfs.
Qed.

(** ** Creation *)

(** C2, as the code has it: when every index from the cursor up to 9999 has
    its file, [create_new_recording] called in [Idle] returns [nullptr] and
    goes through [set_error]: the error is [TooManyFiles] and the state
    becomes [Error]; nothing else in the store and no file changes. *)
Theorem create_new_recording_too_many_files
    (e : SD.Env) (s : Storage) (m : SD.Medium) :
  _state s = Idle →
  (∀ i, _last_file_index s ≤ i < 10000 → taken m i) →
  ∃ s' m',
    create_new_recording e s m = (None, s', m')
    ∧ _error s' = TooManyFiles
    ∧ _state s' = Error
    ∧ s' = set_error TooManyFiles s
    ∧ SD.fs m' = SD.fs m.
Proof.
  intros Hidle Hall. unfold create_new_recording. rewrite Hidle. simpl.
  destruct (scan_full (Z.to_nat (10000 - _last_file_index s))
              (_last_file_index s) m) as (m' & Hscan & Hfs).
  { intros k Hk. apply Hall. lia. }
  rewrite Hscan. by exists (set_error TooManyFiles s), m'.
Qed.

Lemma create_new_recording_too_many_files_witness :
  ∃ s' m',
    create_new_recording good_card (store Idle None EmptyString 9999)
      (medium_of [("/recordings/09999.rec", SD.Reg [])]) = (None, s', m')
    ∧ _error s' = TooManyFiles
    ∧ _state s' = Error
    ∧ s' = set_error TooManyFiles (store Idle None EmptyString 9999)
    ∧ SD.fs m' = SD.fs (medium_of [("/recordings/09999.rec", SD.Reg [])]).
Proof.
  apply create_new_recording_too_many_files; [reflexivity|].
  intros i Hi. simpl in Hi. assert (i = 9999) as -> by lia.
  eexists. vm_compute. reflexivity.
Defined.

(** C2, as stated, fails: with the cursor at 9999 and 09999.rec on the card,
    the call is made in [Idle] with every remaining index taken, and the
    store is left in [Error], not in [Idle]. *)
Lemma too_many_files_escalates :
  let s := store Idle None EmptyString 9999 in
  let m := medium_of [("/recordings/09999.rec", SD.Reg [])] in
  _state s = Idle
  ∧ (∀ i, _last_file_index s ≤ i < 10000 → taken m i)
  ∧ (create_new_recording good_card s m).1.1 = None
  ∧ _error (create_new_recording good_card s m).1.2 = TooManyFiles
  ∧ _state (create_new_recording good_card s m).1.2 = Error
  ∧ _state (create_new_recording good_card s m).1.2 ≠ Idle.
Proof.
  simpl. split; [reflexivity|]. split.
  - intros i Hi. assert (i = 9999) as -> by lia. eexists. vm_compute. reflexivity.
  - vm_compute. repeat split; discriminate.
Qed.

(** C8: called in [Idle] with the first gap at or above the cursor at index
    [i] (every index from the cursor up to [i] is taken, [i] is not; files
    below the cursor play no part), [create_new_recording], when the open
    succeeds, returns the 5-digit zero-padded decimal of [i], sets
    [_current_recording_name] to it, holds a write handle on
    /recordings/<name>.rec, which is now an empty file, and is in state
    [Recording]. *)
Theorem create_new_recording_first_gap
    (e : SD.Env) (s : Storage) (m : SD.Medium) (i : Z) :
  _state s = Idle →
  0 ≤ _last_file_index s ≤ i → i < 10000 →
  ¬ taken m i →
  (∀ k, _last_file_index s ≤ k < i → taken m k) →
  SD.open_ok e = true →
  ∃ s' m',
    create_new_recording e s m = (Some (five_digits i), s', m')
    ∧ _state s' = Recording
    ∧ _current_recording_name s' = five_digits i
    ∧ _current_file s' = Some (write_handle (five_digits i))
    ∧ _error s' = _error s
    ∧ _last_file_index s' = _last_file_index s
    ∧ SD.fs m' = <[build_recording_path (five_digits i) := SD.Reg []]> (SD.fs m).
Proof.
  intros Hidle Hrange Hlt Hfree Hbelow Hopen.
  unfold create_new_recording. rewrite Hidle. simpl.
  destruct (scan_first_gap (Z.to_nat (10000 - _last_file_index s))
              (_last_file_index s) i m) as (m1 & Hscan & Hfs); [lia|done|done|].
  rewrite Hscan. unfold SD.open. simpl. rewrite Hfs, Hopen.
  assert (SD.fs m !! recording_path_of i = None) as Hnone.
  { destruct (SD.fs m !! recording_path_of i) eqn:E; [|done].
    exfalso. apply Hfree. unfold taken. by rewrite E. }
  rewrite Hnone. simpl.
  rewrite recording_name_five_digits, recording_path_five_digits by lia.
  eexists _, _. split; [reflexivity|]. simpl. by rewrite Hfs.
Qed.

Lemma create_new_recording_first_gap_witness :
  ∃ s' m',
    create_new_recording good_card (store Idle None EmptyString 1)
      (medium_of [("/recordings/00001.rec", SD.Reg [])])
    = (Some (five_digits 2), s', m')
    ∧ _state s' = Recording
    ∧ _current_recording_name s' = five_digits 2
    ∧ _current_file s' = Some (write_handle (five_digits 2))
    ∧ _error s' = _error (store Idle None EmptyString 1)
    ∧ _last_file_index s' = _last_file_index (store Idle None EmptyString 1)
    ∧ SD.fs m' = <[build_recording_path (five_digits 2) := SD.Reg []]>
                   (SD.fs (medium_of [("/recordings/00001.rec", SD.Reg [])])).
Proof.
  apply create_new_recording_first_gap; simpl; try lia; try reflexivity.
  - intros [x Hx]. vm_compute in Hx. discriminate.
  - intros k Hk. assert (k = 1) as -> by lia. eexists. vm_compute. reflexivity.
Defined.

(** ** Calls made in the wrong state *)

(** C6: an operation that checks the state, called in a state it does not
    accept (so in particular in [Error]), returns its failure value and
    leaves the store (state, error, cursor, current name, handle) and the
    card as they are; no driver call is made, the record of calls included
    in the card being unchanged. *)
Theorem wrong_state_is_refused
    (e : SD.Env) (op : Op) (s : Storage) (m : SD.Medium) :
  expects op (_state s) = false →
  run e op s m = (failure op, s, m).
Proof.
  intros Hst. destruct op; simpl in *; try discriminate.
  - unfold list_recordings. by rewrite Hst.
  - unfold remove_recording. by rewrite Hst.
  - unfold create_new_recording. by rewrite Hst.
  - unfold write_record. by rewrite Hst.
  - unfold open_recording. by rewrite Hst.
  - unfold read_record. by rewrite Hst.
  - unfold close_recording. by destruct (_state s).
Qed.

Lemma wrong_state_is_refused_witness :
  run bad_card CreateNewRecording
      (set_error FileSystemError (store Recording (Some (write_handle "00000")) "00000" 0))
      (medium_of [("/recordings/00000.rec", SD.Reg [])])
  = (RName None,
     set_error FileSystemError (store Recording (Some (write_handle "00000")) "00000" 0),
     medium_of [("/recordings/00000.rec", SD.Reg [])]).
Proof. apply (wrong_state_is_refused bad_card CreateNewRecording). reflexivity. Defined.

(** ** Writing *)

(** C9: [write_record] called in [Recording] with [length == 0] returns
    [false] at once: the store (state and error included) and the card are
    unchanged and no driver call is made, so the call can be repeated. *)
Theorem write_record_zero_length
    (e : SD.Env) (data : list float32) (length : byte) (s : Storage) (m : SD.Medium) :
  _state s = Recording →
  int_of_byte length = 0 →
  write_record e data length s m = (false, s, m).
Proof.
  intros Hst Hlen. unfold write_record. by rewrite Hst, Hlen.
Qed.

Lemma write_record_zero_length_witness :
  write_record good_card [] x00
    (store Recording (Some (write_handle "00000")) "00000" 0)
    (medium_of [("/recordings/00000.rec", SD.Reg [])])
  = (false, store Recording (Some (write_handle "00000")) "00000" 0,
     medium_of [("/recordings/00000.rec", SD.Reg [])]).
Proof. apply write_record_zero_length; reflexivity. Defined.

(** ** Opening for read *)

(** C5: [open_recording] called in [Idle] for a recording whose file is not
    on the card, or whose file is there but cannot be opened, returns
    [false]; the state is still [Idle] and the error is what it was. *)
Theorem open_recording_failure_stays_idle
    (e : SD.Env) (name : string) (s : Storage) (m : SD.Medium) :
  _state s = Idle →
  SD.fs m !! build_recording_path name = None
  ∨ (is_Some (SD.fs m !! build_recording_path name) ∧ SD.open_ok e = false) →
  ∃ s' m',
    open_recording e name s m = (false, s', m')
    ∧ _state s' = Idle
    ∧ _error s' = _error s
    ∧ _last_file_index s' = _last_file_index s
    ∧ SD.fs m' = SD.fs m.
Proof.
  intros Hst Hfail. unfold open_recording, SD.exists_, SD.open.
  rewrite Hst. simpl.
  destruct Hfail as [Hnone | [Hsome Hopen]].
  - rewrite bool_decide_eq_false_2 by (rewrite Hnone; by intros [? ?]).
    by eexists _, _.
  - rewrite bool_decide_eq_true_2 by done. rewrite Hopen. simpl.
    by eexists _, _.
Qed.

Lemma open_recording_failure_stays_idle_witness :
  ∃ s' m',
    open_recording good_card "missing" (store Idle None EmptyString 0) (medium_of [])
    = (false, s', m')
    ∧ _state s' = Idle
    ∧ _error s' = _error (store Idle None EmptyString 0)
    ∧ _last_file_index s' = _last_file_index (store Idle None EmptyString 0)
    ∧ SD.fs m' = SD.fs (medium_of []).
Proof.
  apply open_recording_failure_stays_idle; [reflexivity|].
  left. vm_compute. reflexivity.
Defined.

(** ** Removal *)

(** C10: [remove_recording] called in [Idle] for a name whose file is not on
    the card returns [false] and leaves the store as it is.  The call ends
    in [Error] exactly when the file is there and the driver fails to remove
    it; the error is then [CanNotRemoveFile], and in every other case the
    store is unchanged. *)
Theorem remove_recording_error_only_on_failed_removal
    (e : SD.Env) (name : string) (s : Storage) (m : SD.Medium) :
  _state s = Idle →
  ∃ ok s' m',
    remove_recording e name s m = (ok, s', m')
    ∧ (SD.fs m !! build_recording_path name = None → ok = false ∧ s' = s)
    ∧ (_state s' = Error ↔
       is_Some (SD.fs m !! build_recording_path name) ∧ SD.remove_ok e = false)
    ∧ (_state s' = Error → ok = false ∧ _error s' = CanNotRemoveFile)
    ∧ (_state s' ≠ Error → s' = s).
Proof.
  intros Hst. unfold remove_recording, SD.exists_, SD.remove.
  rewrite Hst. simpl.
  destruct (SD.fs m !! build_recording_path name) as [n|] eqn:Hfile.
  - rewrite bool_decide_eq_true_2 by done.
    destruct (SD.remove_ok e) eqn:Hrm; simpl; eexists _, _, _;
      (split; [reflexivity|]); simpl; rewrite ?Hst;
      repeat split; try done; try (by intros [_ ?]); by intros [? ?].
  - rewrite bool_decide_eq_false_2 by (by intros [? ?]).
    eexists _, _, _. split; [reflexivity|]. rewrite Hst.
    repeat split; try done. by intros [[? ?] _].
Qed.

Lemma remove_recording_error_only_on_failed_removal_witness :
  ∃ ok s' m',
    remove_recording bad_card "00000" (store Idle None EmptyString 0)
      (medium_of [("/recordings/00000.rec", SD.Reg [])]) = (ok, s', m')
    ∧ (SD.fs (medium_of [("/recordings/00000.rec", SD.Reg [])])
         !! build_recording_path "00000" = None → ok = false ∧ s' = store Idle None EmptyString 0)
    ∧ (_state s' = Error ↔
       is_Some (SD.fs (medium_of [("/recordings/00000.rec", SD.Reg [])])
                  !! build_recording_path "00000")
       ∧ SD.remove_ok bad_card = false)
    ∧ (_state s' = Error → ok = false ∧ _error s' = CanNotRemoveFile)
    ∧ (_state s' ≠ Error → s' = store Idle None EmptyString 0).
Proof. apply remove_recording_error_only_on_failed_removal. reflexivity. Defined.

(** ** Closing, the cursor and the handle *)

Lemma run_last_file_index (e : SD.Env) (op : Op) (s : Storage) (m : SD.Medium) :
  _last_file_index (run e op s m).1.2 = _last_file_index s
  ∨ (op = CloseRecording ∧ _state s = Recording
     ∧ _last_file_index (run e op s m).1.2 = _last_file_index s + 1).
Proof.
  destruct op; try (left; op_cases; fail).
  destruct (_state s) eqn:Hst; [left|left|right|left]; op_cases.
Qed.

(** The cursor invariant is established by construction and kept by every
    operation. *)
Lemma cursor_bounded (e : SD.Env) (op : Op) (s : Storage) (m : SD.Medium) :
  cursor_ok (construct e m).1
  ∧ (cursor_ok s → cursor_ok (run e op s m).1.2).
Proof.
  unfold cursor_ok. split.
  - unfold construct. op_cases; split; (lia || done).
  - intros [Hrange Hrec]. destruct op;
      try (op_cases; split; try done; try lia; intros; try congruence; lia).
    + cbn [run]. unfold create_new_recording.
      destruct (negb _); simpl; [done|].
      destruct (scan _ _ m) as [[j|] m1] eqn:Hscan; simpl.
      * apply scan_range in Hscan. op_cases; split; try done; lia.
      * split; [done|]. simpl. congruence.
    + cbn [run]. unfold close_recording, close_current_file.
      destruct (_state s) eqn:Hst, (_current_file s); simpl;
        split; try done; try lia; try (intros; congruence).
      all: specialize (Hrec eq_refl); lia.
Qed.

(** C7: [close_recording] succeeds exactly from [Recording] and [Reading].
    From [Recording] it leaves the state [Idle], the cursor one higher and
    the current name empty; from [Reading] it leaves the state [Idle] and
    the cursor as it was.  No operation of the store lowers the cursor. *)
Theorem close_recording_cursor
    (e : SD.Env) (op : Op) (s : Storage) (m : SD.Medium) :
  (∃ ok s' m',
     close_recording s m = (ok, s', m')
     ∧ (_state s = Recording →
        ok = true ∧ _state s' = Idle
        ∧ _last_file_index s' = _last_file_index s + 1
        ∧ _current_recording_name s' = EmptyString)
     ∧ (_state s = Reading →
        ok = true ∧ _state s' = Idle
        ∧ _last_file_index s' = _last_file_index s)
     ∧ (ok = true → _state s = Recording ∨ _state s = Reading))
  ∧ _last_file_index s ≤ _last_file_index (run e op s m).1.2.
Proof.
  split.
  - unfold close_recording, close_current_file.
    destruct (_state s) eqn:Hst, (_current_file s); simpl;
      eexists _, _, _; (split; [reflexivity|]); simpl;
      repeat split; try done; auto.
  - destruct (run_last_file_index e op s m) as [-> | (_ & _ & ->)]; lia.
Qed.

Lemma close_recording_cursor_witness :
  ∃ ok s' m',
    close_recording (store Recording (Some (write_handle "00007")) "00007" 7)
      (medium_of [("/recordings/00007.rec", SD.Reg [])]) = (ok, s', m')
    ∧ ok = true ∧ _state s' = Idle ∧ _last_file_index s' = 8
    ∧ _current_recording_name s' = EmptyString.
Proof.
  destruct (close_recording_cursor good_card CloseRecording
              (store Recording (Some (write_handle "00007")) "00007" 7)
              (medium_of [("/recordings/00007.rec", SD.Reg [])]))
    as [(ok & s' & m' & Hrun & Hrec & _) _].
  exists ok, s', m'. split; [exact Hrun|]. apply Hrec. reflexivity.
Defined.

Lemma run_handle_ok (e : SD.Env) (op : Op) (s : Storage) (m : SD.Medium) :
  handle_ok s → handle_ok (run e op s m).1.2.
Proof.
  unfold handle_ok. intros H.
  destruct op; op_cases;
    try (destruct H as (f0 & ? & ?); simplify_eq); eauto.
Qed.

(** C3, as the code has it: every public operation, [clear_error] in any
    state included, keeps a handle open in the mode of the state whenever
    the state is [Recording] or [Reading], and so does construction;
    [close_recording], on both its transitions to [Idle], leaves the handle
    invalid. *)
Theorem handle_open_while_active
    (e : SD.Env) (op : Op) (s : Storage) (m : SD.Medium) :
  handle_ok (construct e m).1
  ∧ (handle_ok s → handle_ok (run e op s m).1.2)
  ∧ (is_recording_open s = true →
     _state (close_recording s m).1.2 = Idle
     ∧ _current_file (close_recording s m).1.2 = None).
Proof.
  split; [|split].
  - unfold handle_ok, construct. op_cases.
  - apply run_handle_ok.
  - unfold is_recording_open. intros Hopen. op_cases.
Qed.

Lemma handle_open_while_active_witness :
  handle_ok (run good_card CloseRecording
               (store Reading (Some (read_handle "00000" 0)) EmptyString 1)
               (medium_of [("/recordings/00000.rec", SD.Reg [])])).1.2
  ∧ _state (close_recording (store Reading (Some (read_handle "00000" 0)) EmptyString 1)
              (medium_of [("/recordings/00000.rec", SD.Reg [])])).1.2 = Idle
  ∧ _current_file
      (close_recording (store Reading (Some (read_handle "00000" 0)) EmptyString 1)
         (medium_of [("/recordings/00000.rec", SD.Reg [])])).1.2 = None.
Proof.
  destruct (handle_open_while_active good_card CloseRecording
              (store Reading (Some (read_handle "00000" 0)) EmptyString 1)
              (medium_of [("/recordings/00000.rec", SD.Reg [])]))
    as (_ & Hkeep & Hclose).
  split.
  - apply Hkeep. simpl. by eexists.
  - apply Hclose. reflexivity.
Defined.

(** C3, as stated, fails.  A store that is recording, with its handle open,
    satisfies "open iff the state is Recording or Reading".  When the card
    refuses the write, [write_record] leaves the state [Error] with the
    handle still open; and [clear_error], called on the recording store,
    leaves the state [Idle] with the handle still open. *)
Lemma open_iff_active_broken :
  let s := store Recording (Some (write_handle "00000")) "00000" 0 in
  let m := medium_of [("/recordings/00000.rec", SD.Reg [])] in
  let s1 := (run bad_card (WriteRecord [F32 x00 x00 x80 x3f] x01) s m).1.2 in
  let s2 := (run good_card ClearError s m).1.2 in
  open_iff_active s
  ∧ _state s1 = Error ∧ is_Some (_current_file s1) ∧ ¬ open_iff_active s1
  ∧ _state s2 = Idle ∧ is_Some (_current_file s2) ∧ ¬ open_iff_active s2.
Proof.
  simpl. repeat split; try (by eexists); try reflexivity.
  - intros [H _]. assert (false = true) as Hne; [|discriminate Hne].
    apply H. by eexists.
  - intros [H _]. assert (false = true) as Hne; [|discriminate Hne].
    apply H. by eexists.
Qed.

(** ** The record encoding *)

Lemma int_of_byte_range (b : byte) : 0 ≤ int_of_byte b ≤ 255.
Proof. unfold int_of_byte. pose proof (Byte.to_N_bounded b). lia. Qed.

Lemma int_of_uint8_of_nat (n : nat) :
  (n ≤ 255)%nat → int_of_byte (uint8_of_nat n) = Z.of_nat n.
Proof.
  intros Hn. unfold uint8_of_nat, int_of_byte.
  rewrite N.mod_small by lia.
  destruct (Byte.of_N (N.of_nat n)) as [b|] eqn:Hb; simpl.
  - apply Byte.to_of_N in Hb. lia.
  - apply Byte.of_N_None_iff in Hb. lia.
Qed.

Lemma length_bytes_of_floats (r : list float32) :
  length (bytes_of_floats r) = (4 * length r)%nat.
Proof. induction r as [|[a b c d] r IH]; simpl; [done|]. rewrite IH. lia. Qed.

Lemma floats_of_bytes_app (r : list float32) (bs : list byte) :
  floats_of_bytes (bytes_of_floats r ++ bs) = r ++ floats_of_bytes bs.
Proof. induction r as [|[a b c d] r IH]; simpl; [done|]. by rewrite IH. Qed.


Lemma byte_count_of_nat (n : nat) : byte_count (Z.of_nat n) = (4 * n)%nat.
Proof. unfold byte_count. lia. Qed.

(** ** Reading and writing through the handle *)

Lemma pending_advance (n : nat) (f : SD.File) (m : SD.Medium) :
  SD.pending (SD.advance n f) m = drop n (SD.pending f m).
Proof.
  unfold SD.pending, SD.advance. simpl.
  destruct (SD.f_mode f), (SD.content m (SD.f_path f)); simpl;
    rewrite ?drop_drop, ?drop_nil; done.
Qed.

Lemma advance_advance (a b : nat) (f : SD.File) :
  SD.advance a (SD.advance b f) = SD.advance (b + a) f.
Proof. unfold SD.advance. simpl. f_equal. lia. Qed.


(** A buffer that is not larger than the pending record: the length is
    returned negated, only [peek] has been called. *)
Lemma read_record_refused
    (e : SD.Env) (data : list float32) (capacity : byte)
    (s : Storage) (m : SD.Medium) (f : SD.File) (b : byte) (rest : list byte) :
  _state s = Reading → _current_file s = Some f →
  SD.pending f m = b :: rest →
  SD.peek_ok e = true →
  int_of_byte capacity ≤ int_of_byte b →
  read_record e data capacity s m
  = (- int_of_byte b, data, s, SD.log (SD.CPeek (SD.f_path f)) m).
Proof.
  intros Hst Hf Hp Hpeek Hcap. unfold read_record, SD.peek.
  rewrite Hst, Hf, Hp, Hpeek. simpl.
  pose proof (int_of_byte_range b).
  destruct (int_of_byte b =? -1) eqn:E1; [lia|].
  rewrite Z.geb_leb. destruct (int_of_byte capacity <=? int_of_byte b) eqn:E2; [done|lia].
Qed.

(** A buffer larger than the pending record, on a card that serves the
    reads: the record is consumed and copied to the caller's array. *)
Lemma read_record_served
    (e : SD.Env) (data : list float32) (capacity : byte)
    (s : Storage) (m : SD.Medium) (f : SD.File)
    (b : byte) (payload rest : list byte) :
  _state s = Reading → _current_file s = Some f →
  SD.pending f m = b :: payload ++ rest →
  length payload = byte_count (int_of_byte b) →
  1 ≤ int_of_byte b < int_of_byte capacity →
  healthy e →
  ∃ m',
    read_record e data capacity s m
    = (int_of_byte b, fill data payload,
       with_file (Some (SD.advance (1 + length payload) f)) s, m')
    ∧ SD.fs m' = SD.fs m.
Proof.
  intros Hst Hf Hp Hlen Hcap (_ & _ & Hpeek & Hread & Hmax).
  unfold read_record, SD.peek, SD.read_byte, SD.read.
  rewrite Hst, Hf, Hp, Hpeek. simpl.
  pose proof (int_of_byte_range b) as Hb.
  destruct (int_of_byte b =? -1) eqn:E1; [lia|].
  rewrite Z.geb_leb.
  destruct (int_of_byte capacity <=? int_of_byte b) eqn:E2; [lia|].
  change (SD.pending f (SD.log (SD.CPeek (SD.f_path f)) m)) with (SD.pending f m).
  rewrite Hp, Hread, E1.
  match goal with |- context [SD.pending (SD.advance 1 f) ?m1] =>
    change (SD.pending (SD.advance 1 f) m1) with (SD.pending (SD.advance 1 f) m)
  end.
  rewrite pending_advance, Hp. simpl. rewrite drop_0.
  assert (Nat.min (byte_count (int_of_byte b)) (SD.read_max e) = length payload) as ->.
  { rewrite Hlen. unfold byte_count in *. lia. }
  rewrite take_app_length, advance_advance.
  destruct (length payload =? 0)%nat eqn:E3.
  { apply Nat.eqb_eq in E3. unfold byte_count in Hlen. lia. }
  by eexists.
Qed.

(** C4, as the code has it: in [Reading], with a record of length [L]
    pending and a capacity of at most [L], [read_record] returns [-L] and
    consumes nothing: the store, with its handle and position, is unchanged
    and the pending bytes are the same.  A retry whose capacity is greater
    than [L] (for a record of at least one value, on a card that serves the
    reads) returns [L], copies the record to the caller's array and moves
    past it, staying in [Reading] with the error untouched. *)
Theorem read_record_small_buffer
    (e e' : SD.Env) (data data' : list float32) (capacity capacity' : byte)
    (s : Storage) (m : SD.Medium) (f : SD.File)
    (L : byte) (payload rest : list byte) :
  _state s = Reading → _current_file s = Some f →
  SD.pending f m = L :: payload ++ rest →
  length payload = byte_count (int_of_byte L) →
  SD.peek_ok e = true →
  int_of_byte capacity ≤ int_of_byte L →
  ∃ m1,
    read_record e data capacity s m = (- int_of_byte L, data, s, m1)
    ∧ SD.pending f m1 = SD.pending f m
    ∧ (1 ≤ int_of_byte L → int_of_byte L < int_of_byte capacity' → healthy e' →
       ∃ s2 m2 f2,
         read_record e' data' capacity' s m1
         = (int_of_byte L, fill data' payload, s2, m2)
         ∧ _state s2 = Reading ∧ _error s2 = _error s
         ∧ _current_file s2 = Some f2 ∧ SD.pending f2 m2 = rest).
Proof.
  intros Hst Hf Hp Hlen Hpeek Hcap.
  exists (SD.log (SD.CPeek (SD.f_path f)) m).
  split; [|split].
  - by apply read_record_refused with (rest := payload ++ rest).
  - reflexivity.
  - intros HL Hcap' He'.
    destruct (read_record_served e' data' capacity' s
                (SD.log (SD.CPeek (SD.f_path f)) m) f L payload rest)
      as (m2 & Hrun & Hfs); try done.
    eexists _, m2, _. split; [exact Hrun|]. simpl.
    repeat split; try done.
    rewrite pending_advance.
    assert (SD.pending f m2 = SD.pending f m) as ->.
    { unfold SD.pending, SD.content. by rewrite Hfs. }
    rewrite Hp. simpl. by rewrite drop_app_length.
Qed.

Lemma read_record_small_buffer_witness :
  ∃ m1,
    read_record good_card (replicate 2 (F32 x00 x00 x00 x00)) x02
      (store Reading (Some (read_handle "00000" 0)) EmptyString 1)
      (medium_of [("/recordings/00000.rec",
                   SD.Reg [x02; x00; x00; x80; x3f; x00; x00; x00; x40; x01])])
    = (- int_of_byte x02, replicate 2 (F32 x00 x00 x00 x00),
       store Reading (Some (read_handle "00000" 0)) EmptyString 1, m1)
    ∧ ∃ s2 m2 f2,
        read_record good_card (replicate 3 (F32 x00 x00 x00 x00)) x03
          (store Reading (Some (read_handle "00000" 0)) EmptyString 1) m1
        = (int_of_byte x02,
           fill (replicate 3 (F32 x00 x00 x00 x00))
             [x00; x00; x80; x3f; x00; x00; x00; x40], s2, m2)
        ∧ _state s2 = Reading ∧ _error s2 = NoError
        ∧ _current_file s2 = Some f2 ∧ SD.pending f2 m2 = [x01].
Proof.
  destruct (read_record_small_buffer good_card good_card
              (replicate 2 (F32 x00 x00 x00 x00)) (replicate 3 (F32 x00 x00 x00 x00))
              x02 x03
              (store Reading (Some (read_handle "00000" 0)) EmptyString 1)
              (medium_of [("/recordings/00000.rec",
                           SD.Reg [x02; x00; x00; x80; x3f; x00; x00; x00; x40; x01])])
              (read_handle "00000" 0) x02
              [x00; x00; x80; x3f; x00; x00; x00; x40] [x01])
    as (m1 & Hfirst & _ & Hretry); try reflexivity.
  exists m1. split; [exact Hfirst|]. apply Hretry.
  - vm_compute. discriminate.
  - reflexivity.
  - unfold healthy. simpl. repeat split; lia.
Defined.

(** C4, as stated, fails: with a record of three values pending, a call with
    capacity 3 returns -3, and the retry with capacity 3, which is at least
    the record's length, returns -3 again instead of 3. *)
Lemma retry_with_equal_capacity_refused :
  let s := store Reading (Some (read_handle "00000" 0)) EmptyString 1 in
  let m := medium_of [("/recordings/00000.rec",
                       SD.Reg [x03; x00; x00; x80; x3f; x00; x00; x00; x40;
                               x00; x00; x40; x40])] in
  let buf := replicate 3 (F32 x00 x00 x00 x00) in
  let '(n1, buf1, s1, m1) := read_record good_card buf x03 s m in
  let '(n2, buf2, s2, m2) := read_record good_card buf1 x03 s1 m1 in
  n1 = -3 ∧ s1 = s ∧ int_of_byte x03 >= 3 ∧ n2 = -3 ∧ n2 ≠ 3 ∧ buf2 = buf.
Proof. vm_compute. repeat split; discriminate. Qed.

(** ** Round trip *)









(** The scenario of the specification, from a fresh store on an empty card:
    the first recording is "00000", a record of three values is written and
    read back, the next read reports the end of the stream, and the cursor
    is 1 after the first close. *)
Example fresh_store_scenario :
  let one := F32 x00 x00 x80 x3f in
  let two := F32 x00 x00 x00 x40 in
  let three := F32 x00 x00 x40 x40 in
  let buf := replicate 9 (F32 x00 x00 x00 x00) in
  let '(s, m) := construct good_card {| SD.fs := ∅; SD.calls := [] |} in
  let '(name, s, m) := create_new_recording good_card s m in
  let '(written, s, m) := write_record good_card [one; two; three] x03 s m in
  let '(closed, s, m) := close_recording s m in
  let index := _last_file_index s in
  let '(opened, s, m) := open_recording good_card "00000" s m in
  let '(n1, buf1, s, m) := read_record good_card buf x09 s m in
  let '(n2, buf2, s, m) := read_record good_card buf1 x09 s m in
  let '(closed2, s, m) := close_recording s m in
  name = Some "00000" ∧ written = true ∧ closed = true ∧ index = 1
  ∧ opened = true ∧ n1 = 3 ∧ take 3 buf1 = [one; two; three]
  ∧ n2 = 0 ∧ closed2 = true ∧ _state s = Idle ∧ _error s = NoError.
Proof. vm_compute. repeat split. Qed.

(** * Further properties of the store *)

(** ** Initialisation and recovery *)

(** X1: [init] succeeds exactly when the card mounts and /recordings is
    there or can be made.  On success the state is [Idle], /recordings is on
    the card, and the error code is left as it was; on failure the state is
    [Error] with [CanNotInitialize] (mount) or [FileSystemError] (mkdir) and
    no file has changed.  Cursor, name and handle are never touched, and no
    path other than /recordings changes. *)
Theorem init_outcome (e : SD.Env) (s : Storage) (m : SD.Medium) :
  ∃ ok s' m',
    init e s m = (ok, s', m')
    ∧ (ok = true ↔
       SD.begin_ok e = true
       ∧ (is_Some (SD.fs m !! "/recordings") ∨ SD.mkdir_ok e = true))
    ∧ (ok = true →
       _state s' = Idle ∧ _error s' = _error s
       ∧ is_Some (SD.fs m' !! "/recordings"))
    ∧ (ok = false →
       _state s' = Error ∧ SD.fs m' = SD.fs m
       ∧ _error s' = (if SD.begin_ok e then FileSystemError else CanNotInitialize))
    ∧ _current_file s' = _current_file s
    ∧ _current_recording_name s' = _current_recording_name s
    ∧ _last_file_index s' = _last_file_index s
    ∧ (∀ p, p ≠ "/recordings" → SD.fs m' !! p = SD.fs m !! p).
Proof.
  unfold init, SD.begin, SD.exists_, SD.mkdir.
  destruct (SD.begin_ok e) eqn:Hb; simpl.
  - destruct (SD.fs m !! "/recordings") as [n|] eqn:Hdir.
    + rewrite bool_decide_eq_true_2 by done. simpl.
      eexists _, _, _. split; [reflexivity|]. simpl. rewrite Hdir.
      repeat split; try done; eauto.
    + rewrite bool_decide_eq_false_2 by (by intros [? ?]). simpl.
      destruct (SD.mkdir_ok e) eqn:Hmk; simpl;
        eexists _, _, _; (split; [reflexivity|]); simpl.
      * rewrite lookup_insert_eq. repeat split; try done; eauto.
        intros p Hp. by rewrite lookup_insert_ne.
      * repeat split; try done. intros [_ [[? ?]|?]]; done.
  - eexists _, _, _. split; [reflexivity|]. simpl.
    repeat split; try done. by intros [? _].
Qed.

(** X2: [clear_error] returns what its [init] returns.  On success the store
    is [Idle] with the error cleared; on failure it is in [Error] with the
    code of the failed step.  Called in any state, it leaves the cursor, the
    current name and the handle as they are. *)
Theorem clear_error_outcome (e : SD.Env) (s : Storage) (m : SD.Medium) :
  ∃ ok s' m',
    clear_error e s m = (ok, s', m')
    ∧ ok = (init e s m).1.1
    ∧ m' = (init e s m).2
    ∧ (ok = true → _state s' = Idle ∧ _error s' = NoError)
    ∧ (ok = false →
       _state s' = Error
       ∧ _error s' = (if SD.begin_ok e then FileSystemError else CanNotInitialize))
    ∧ _current_file s' = _current_file s
    ∧ _current_recording_name s' = _current_recording_name s
    ∧ _last_file_index s' = _last_file_index s.
Proof.
  unfold clear_error, init, SD.begin, SD.exists_, SD.mkdir.
  destruct (SD.begin_ok e); simpl;
    [destruct (bool_decide (is_Some (SD.fs m !! "/recordings"))); simpl;
     [|destruct (SD.mkdir_ok e); simpl]|];
    eexists _, _, _; (split; [reflexivity|]); simpl; split_and!; done.
Qed.

(** X3: the error code and the state agree on every store the operations
    can reach: a store built by the constructor records an error exactly
    when it is in [Error], and every public operation keeps it so. *)
Theorem error_matches_state_kept
    (e : SD.Env) (op : Op) (s : Storage) (m : SD.Medium) :
  error_matches_state (construct e m).1
  ∧ (error_matches_state s → error_matches_state (run e op s m).1.2).
Proof.
  unfold error_matches_state. split.
  - unfold construct. op_cases; split; done.
  - intros [H1 H2].
    assert (_error s = NoError ∨ _state s = Error) as Hcases.
    { destruct (_error s) eqn:Herr; [by left|..]; right; by apply H2. }
    destruct (_state s) eqn:Hst, Hcases as [Herr|Herr]; try discriminate;
      try (exfalso; by apply H1);
      destruct op; unfold_ops; simpl; rewrite ?Hst, ?Herr; simpl;
      op_cases; rewrite ?Hst, ?Herr; split; intros; simpl in *;
      try done; try congruence; by apply H1.
Qed.

Lemma error_matches_state_kept_witness :
  error_matches_state
    (run bad_card (WriteRecord [F32 x00 x00 x80 x3f] x01)
       (store Recording (Some (write_handle "00000")) "00000" 0)
       (medium_of [("/recordings/00000.rec", SD.Reg [])])).1.2.
Proof.
  apply (error_matches_state_kept bad_card). split; [discriminate|].
  intros H. by contradiction H.
Defined.

(** ** Strings *)

Lemma append_String (c : ascii) (a b : string) :
  (String c a +:+ b)%string = String c (a +:+ b)%string.
Proof. reflexivity. Qed.

Lemma append_Empty (b : string) : (EmptyString +:+ b)%string = b.
Proof. reflexivity. Qed.

Lemma length_append (a b : string) :
  String.length (a +:+ b) = (String.length a + String.length b)%nat.
Proof.
  induction a as [|c a IH]; [done|].
  rewrite append_String. simpl. by rewrite IH.
Qed.

Lemma substring_all (s : string) : String.substring 0 (String.length s) s = s.
Proof. induction s as [|c s IH]; simpl; [done|]. by rewrite IH. Qed.

Lemma substring_prefix (a b : string) :
  String.substring 0 (String.length a) (a +:+ b) = a.
Proof.
  induction a as [|c a IH]; simpl.
  - by destruct (EmptyString +:+ b)%string.
  - rewrite ?append_String. by rewrite IH.
Qed.

Lemma substring_suffix (a b : string) :
  String.substring (String.length a) (String.length b) (a +:+ b) = b.
Proof.
  induction a as [|c a IH]; simpl.
  - rewrite ?append_Empty. apply substring_all.
  - rewrite ?append_String. exact IH.
Qed.

Lemma length_substring_prefix (n : nat) (s : string) :
  (n ≤ String.length s)%nat → String.length (String.substring 0 n s) = n.
Proof.
  revert s. induction n as [|n IH]; intros [|c s] H; simpl in *; try done; try lia.
  rewrite IH; [done | lia].
Qed.

Lemma length_lower (s : string) : String.length (lower s) = String.length s.
Proof. induction s as [|c s IH]; simpl; [done|]. by rewrite IH. Qed.

Lemma list_ascii_of_append (a b : string) :
  list_ascii_of_string (a +:+ b) = list_ascii_of_string a ++ list_ascii_of_string b.
Proof.
  induction a as [|c a IH]; [done|].
  rewrite append_String. simpl. by rewrite IH.
Qed.

(** ** Names and paths, continued *)

Lemma decoded_from_at (n : nat) : ∀ i k : Z,
  decoded_from n i = true → i ≤ k < i + Z.of_nat n →
  index_of_name (recording_name_of k) = k.
Proof.
  induction n as [|n IH]; intros i k H Hk; simpl in H; [lia|].
  apply andb_prop in H as [Hi Hrest].
  destruct (decide (k = i)) as [->|Hne]; [lia|].
  apply (IH (i + 1)); [done | lia].
Qed.

Lemma names_decoded : decoded_from (Z.to_nat 10000) 0 = true.
Proof. vm_compute. reflexivity. Qed.

(** X4: the names that [create_new_recording] forms for two different
    indices between 0 and 9999 are different, and so are the paths of their
    files: recordings never collide on the card. *)
Theorem recording_names_distinct (i j : Z) :
  0 ≤ i < 10000 → 0 ≤ j < 10000 →
  (recording_name_of i = recording_name_of j → i = j)
  ∧ (recording_path_of i = recording_path_of j → i = j).
Proof.
  intros Hi Hj.
  assert (recording_name_of i = recording_name_of j → i = j) as Hname.
  { intros H.
    rewrite <- (decoded_from_at _ 0 i names_decoded) by lia.
    rewrite <- (decoded_from_at _ 0 j names_decoded) by lia.
    by rewrite H. }
  split; [done|]. intros H. apply Hname.
  rewrite !recording_path_five_digits in H by lia.
  rewrite !recording_name_five_digits by lia.
  unfold build_recording_path in H.
  apply (inj (String.append "/recordings/")) in H.
  rewrite <- (substring_prefix (five_digits i) ".rec").
  rewrite <- (substring_prefix (five_digits j) ".rec").
  by rewrite H.
Qed.

Lemma recording_names_distinct_witness :
  (recording_name_of 7 = recording_name_of 70 → 7 = 70)
  ∧ (recording_path_of 7 = recording_path_of 70 → 7 = 70).
Proof. apply recording_names_distinct; lia. Defined.

Lemma recording_name_short (i : Z) :
  (String.length (recording_name_of i) ≤ 5)%nat.
Proof.
  unfold recording_name_of, snprintf.
  rewrite length_substring_prefix by lia. lia.
Qed.

Lemma recording_path_built (i : Z) :
  recording_path_of i = build_recording_path (recording_name_of i).
Proof.
  pose proof (recording_name_short i) as Hlen.
  unfold recording_path_of, build_recording_path, snprintf.
  rewrite Nat.min_r; [apply substring_all|].
  rewrite !length_append. simpl. lia.
Qed.

(** X5: the 22-byte path buffer is never too short: for every value of the
    loop variable, the path that is tested and opened is
    /recordings/<name>.rec for the name held in the 6-byte name buffer, which
    has at most 5 characters. *)
Theorem recording_path_of_name (i : Z) :
  recording_path_of i = build_recording_path (recording_name_of i)
  ∧ (String.length (recording_name_of i) ≤ 5)%nat.
Proof. split; [apply recording_path_built | apply recording_name_short]. Qed.

(** ** Enumeration *)

(** X6: the loop body of [list_recordings] undoes [build_recording_path]: a
    file entry named /recordings/<name><ext>, where <ext> is ".rec" in any
    mix of upper and lower case, is reported under <name> with its size; in
    particular the entry of the path built for <name> is reported as
    <name>.  A directory entry is never reported. *)
Theorem recording_of_entry_path (name ext : string) (size : nat) :
  strcasecmp_eq ext ".rec" = true →
  recording_of_entry
    {| SD.e_name := ("/recordings/" +:+ name +:+ ext)%string;
       SD.e_is_dir := false; SD.e_size := size |}
  = [ {| get_name := name; get_size := size |} ]
  ∧ recording_of_entry
      {| SD.e_name := build_recording_path name;
         SD.e_is_dir := false; SD.e_size := size |}
    = [ {| get_name := name; get_size := size |} ]
  ∧ recording_of_entry
      {| SD.e_name := ("/recordings/" +:+ name +:+ ext)%string;
         SD.e_is_dir := true; SD.e_size := size |} = [].
Proof.
  assert (∀ x, strcasecmp_eq x ".rec" = true →
    recording_of_entry
      {| SD.e_name := ("/recordings/" +:+ name +:+ x)%string;
         SD.e_is_dir := false; SD.e_size := size |}
    = [ {| get_name := name; get_size := size |} ]) as Hgen.
  { intros x Hx.
    assert (String.length x = 4%nat) as Hlen.
    { unfold strcasecmp_eq in Hx. apply String.eqb_eq in Hx.
      rewrite <- length_lower, Hx. reflexivity. }
    unfold recording_of_entry.
    cbn [SD.e_is_dir SD.e_name SD.e_size negb].
    rewrite !append_String, append_Empty.
    cbn [String.prefix String.length Nat.sub String.substring].
    repeat (destruct (ascii_dec _ _) as [_|Hne]; [|done]).
    assert (String.prefix EmptyString (name +:+ x) = true) as ->
      by (by destruct (name +:+ x)%string).
    rewrite Nat.sub_0_r, substring_all, length_append, Hlen.
    replace (String.length name + 4 - 4)%nat with (String.length name) by lia.
    assert (String.substring (String.length name) 4 (name +:+ x) = x) as ->
      by (rewrite <- Hlen; apply substring_suffix).
    rewrite Hx, substring_prefix.
    destruct (4 <=? String.length name + 4)%nat eqn:E; [done|].
    apply Nat.leb_gt in E. lia. }
  intros Hext. split; [by apply Hgen|]. split; [by apply Hgen|done].
Qed.

Lemma recording_of_entry_path_witness :
  recording_of_entry
    {| SD.e_name := ("/recordings/" +:+ "00012" +:+ ".REC")%string;
       SD.e_is_dir := false; SD.e_size := 13 |}
  = [ {| get_name := "00012"; get_size := 13 |} ]
  ∧ recording_of_entry
      {| SD.e_name := build_recording_path "00012";
         SD.e_is_dir := false; SD.e_size := 13 |}
    = [ {| get_name := "00012"; get_size := 13 |} ]
  ∧ recording_of_entry
      {| SD.e_name := ("/recordings/" +:+ "00012" +:+ ".REC")%string;
         SD.e_is_dir := true; SD.e_size := 13 |} = [].
Proof. apply recording_of_entry_path. reflexivity. Defined.

Lemma recording_of_entry_built (name : string) (size : nat) :
  recording_of_entry
    {| SD.e_name := build_recording_path name;
       SD.e_is_dir := false; SD.e_size := size |}
  = [ {| get_name := name; get_size := size |} ].
Proof.
  unfold recording_of_entry.
  cbn [SD.e_is_dir SD.e_name SD.e_size negb]. unfold build_recording_path.
  rewrite !append_String, append_Empty.
  cbn [String.prefix String.length Nat.sub String.substring].
  repeat (destruct (ascii_dec _ _) as [_|Hne]; [|done]).
  assert (String.prefix EmptyString (name +:+ ".rec") = true) as ->
    by (by destruct (name +:+ ".rec")%string).
  rewrite Nat.sub_0_r, substring_all, length_append.
  change (String.length ".rec") with 4%nat.
  replace (String.length name + 4 - 4)%nat with (String.length name) by lia.
  change 4%nat with (String.length ".rec") at 3.
  rewrite substring_suffix, substring_prefix.
  destruct (4 <=? String.length name + 4)%nat eqn:E; [reflexivity|].
  apply Nat.leb_gt in E. lia.
Qed.

Lemma is_child_recording (name : string) :
  "/"%char ∉ list_ascii_of_string name →
  SD.is_child "/recordings" (build_recording_path name) = true.
Proof.
  intros Hname. unfold SD.is_child, build_recording_path.
  change ("/recordings" +:+ "/")%string with "/recordings/".
  rewrite !append_String, append_Empty.
  cbn [String.prefix String.eqb String.length list_ascii_of_string drop].
  repeat (destruct (ascii_dec _ _) as [_|Hne]; [|done]).
  assert (String.prefix EmptyString (name +:+ ".rec") = true) as ->
    by (by destruct (name +:+ ".rec")%string).
  repeat (rewrite Ascii.eqb_refl; cbn [String.eqb]).
  assert (String.eqb (name +:+ ".rec") EmptyString = false) as ->.
  { destruct name; [done|]. by rewrite append_String. }
  rewrite list_ascii_of_append. simpl.
  rewrite bool_decide_eq_false_2; [done|].
  rewrite drop_0, elem_of_app. intros [H|H]; [done|].
  repeat (apply elem_of_cons in H as [H|H]; [discriminate H|]).
  by apply elem_of_nil in H.
Qed.

(** X7: [list_recordings] called in [Idle] changes no file and leaves cursor,
    name and handle alone.  When /recordings can be opened the store is
    unchanged and every regular file /recordings/<name>.rec whose name has
    no '/' is reported with its name and size in bytes; when it cannot be
    opened the result is empty and the store is in [Error] with
    [CanNotOpenFile]. *)
Theorem list_recordings_outcome (e : SD.Env) (s : Storage) (m : SD.Medium) :
  _state s = Idle →
  ∃ r s' m',
    list_recordings e s m = (r, s', m')
    ∧ SD.fs m' = SD.fs m
    ∧ _last_file_index s' = _last_file_index s
    ∧ _current_recording_name s' = _current_recording_name s
    ∧ _current_file s' = _current_file s
    ∧ (SD.open_ok e = true → is_Some (SD.fs m !! "/recordings") →
       s' = s
       ∧ ∀ name c,
           SD.fs m !! build_recording_path name = Some (SD.Reg c) →
           "/"%char ∉ list_ascii_of_string name →
           {| get_name := name; get_size := length c |} ∈ r)
    ∧ (SD.open_ok e = false ∨ SD.fs m !! "/recordings" = None →
       r = [] ∧ _state s' = Error ∧ _error s' = CanNotOpenFile).
Proof.
  intros Hst. unfold list_recordings, SD.open. rewrite Hst. simpl.
  destruct (SD.open_ok e) eqn:Hopen; simpl.
  - destruct (SD.fs m !! "/recordings") as [n|] eqn:Hdir.
    + rewrite bool_decide_eq_true_2 by done.
      eexists _, _, _. split; [reflexivity|]. simpl.
      split_and!; try done.
      * intros _ _. split; [done|]. intros name c Hfile Hname.
        apply list_elem_of_bind.
        exists {| SD.e_name := build_recording_path name; SD.e_is_dir := false;
                  SD.e_size := length c |}.
        split.
        { rewrite recording_of_entry_built. apply list_elem_of_here. }
        unfold SD.entries.
        apply (list_elem_of_fmap_2' _ _ (build_recording_path name, SD.Reg c));
          [|reflexivity].
        apply list_elem_of_filter. split.
        { simpl. by apply is_child_recording. }
        by apply elem_of_map_to_list.
      * by intros [?|?].
    + rewrite bool_decide_eq_false_2 by (by intros [? ?]).
      eexists _, _, _. split; [reflexivity|]. simpl.
      split_and!; done.
  - eexists _, _, _. split; [reflexivity|]. simpl.
    split_and!; done.
Qed.

Lemma list_recordings_outcome_witness :
  ∃ r,
    (list_recordings good_card (store Idle None EmptyString 2)
       (medium_of [("/recordings/00000.rec", SD.Reg [x01; x00; x00; x80; x3f]);
                   ("/recordings/00001.rec", SD.Reg [])])).1.1 = r
    ∧ {| get_name := "00000"; get_size := 5 |} ∈ r
    ∧ {| get_name := "00001"; get_size := 0 |} ∈ r.
Proof.
  destruct (list_recordings_outcome good_card (store Idle None EmptyString 2)
    (medium_of [("/recordings/00000.rec", SD.Reg [x01; x00; x00; x80; x3f]);
                ("/recordings/00001.rec", SD.Reg [])]))
    as (r & s' & m' & Hrun & _ & _ & _ & _ & Hok & _); [reflexivity|].
  exists r. rewrite Hrun. split; [reflexivity|].
  destruct Hok as [_ Hin]; [reflexivity | by eexists |].
  split.
  - apply (Hin "00000" [x01; x00; x00; x80; x3f]); [reflexivity|].
    vm_compute. intros H. repeat (apply elem_of_cons in H as [H|H]; [discriminate H|]).
    by apply elem_of_nil in H.
  - apply (Hin "00001" []); [reflexivity|].
    vm_compute. intros H. repeat (apply elem_of_cons in H as [H|H]; [discriminate H|]).
    by apply elem_of_nil in H.
Defined.

(** ** Removal, continued *)

(** X8: [remove_recording] called in [Idle] for a file that is on a card
    which removes it returns [true] and leaves the store unchanged; the
    file is gone, every other path is as before, and an [open_recording] of
    the same name afterwards fails with the store still [Idle]. *)
Theorem remove_recording_success
    (e e2 : SD.Env) (name : string) (s : Storage) (m : SD.Medium) :
  _state s = Idle →
  is_Some (SD.fs m !! build_recording_path name) →
  SD.remove_ok e = true →
  ∃ m',
    remove_recording e name s m = (true, s, m')
    ∧ SD.fs m' !! build_recording_path name = None
    ∧ (∀ p, p ≠ build_recording_path name → SD.fs m' !! p = SD.fs m !! p)
    ∧ ∃ m2, open_recording e2 name s m' = (false, s, m2).
Proof.
  intros Hst Hfile Hrm. unfold remove_recording, SD.exists_, SD.remove.
  rewrite Hst, Hrm. simpl. rewrite bool_decide_eq_true_2 by done.
  eexists. split; [reflexivity|]. simpl.
  split; [apply lookup_delete_eq|]. split.
  - intros p Hp. by apply lookup_delete_ne.
  - unfold open_recording, SD.exists_. rewrite Hst. simpl.
    rewrite bool_decide_eq_false_2; [by eexists|].
    rewrite lookup_delete_eq. by intros [? ?].
Qed.

Lemma remove_recording_success_witness :
  ∃ m',
    remove_recording good_card "00000" (store Idle None EmptyString 1)
      (medium_of [("/recordings/00000.rec", SD.Reg [x01])])
    = (true, store Idle None EmptyString 1, m')
    ∧ SD.fs m' !! build_recording_path "00000" = None
    ∧ (∀ p, p ≠ build_recording_path "00000" →
         SD.fs m' !! p
         = SD.fs (medium_of [("/recordings/00000.rec", SD.Reg [x01])]) !! p)
    ∧ ∃ m2, open_recording good_card "00000" (store Idle None EmptyString 1) m'
            = (false, store Idle None EmptyString 1, m2).
Proof.
  apply remove_recording_success; [reflexivity | by eexists | reflexivity].
Defined.

(** ** Creation, continued *)

Lemma scan_sound (n : nat) : ∀ (i j : Z) (m m' : SD.Medium),
  scan n i m = (Some j, m') →
  i ≤ j < i + Z.of_nat n
  ∧ SD.fs m !! recording_path_of j = None
  ∧ (∀ k, i ≤ k < j → taken m k)
  ∧ SD.fs m' = SD.fs m.
Proof.
  induction n as [|n IH]; intros i j m m' H; simpl in H; [done|].
  destruct (SD.fs m !! recording_path_of i) as [x|] eqn:Hi.
  - rewrite bool_decide_eq_true_2 in H by done. simpl in H.
    apply IH in H as (Hr & Hfree & Hbelow & Hfs). simpl in *.
    split; [lia|]. split; [done|]. split; [|done].
    intros k Hk. destruct (decide (k = i)) as [->|Hne].
    + unfold taken. by rewrite Hi.
    + apply Hbelow. lia.
  - rewrite bool_decide_eq_false_2 in H by (by intros [? ?]). simpl in H.
    simplify_eq. split; [lia|]. split; [done|]. split; [|done].
    intros k Hk. lia.
Qed.

Lemma scan_none_sound (n : nat) : ∀ (i : Z) (m m' : SD.Medium),
  scan n i m = (None, m') →
  (∀ k, i ≤ k < i + Z.of_nat n → taken m k) ∧ SD.fs m' = SD.fs m.
Proof.
  induction n as [|n IH]; intros i m m' H; simpl in H.
  - simplify_eq. split; [|done]. intros k Hk. lia.
  - destruct (SD.fs m !! recording_path_of i) as [x|] eqn:Hi.
    + rewrite bool_decide_eq_true_2 in H by done. simpl in H.
      apply IH in H as [Hall Hfs]. simpl in *. split; [|done].
      intros k Hk. destruct (decide (k = i)) as [->|Hne].
      * unfold taken. by rewrite Hi.
      * apply Hall. lia.
    + rewrite bool_decide_eq_false_2 in H by (by intros [? ?]). discriminate.
Qed.

Lemma create_new_recording_fresh
    (e : SD.Env) (s s' : Storage) (m m' : SD.Medium) (name : string) :
  create_new_recording e s m = (Some name, s', m') →
  SD.fs m !! build_recording_path name = None
  ∧ SD.fs m' = <[build_recording_path name := SD.Reg []]> (SD.fs m).
Proof.
  unfold create_new_recording. intros H.
  destruct (_state s) eqn:Hst; simpl in H; try discriminate.
  destruct (scan _ _ m) as [[i|] m1] eqn:Hscan; [|discriminate].
  apply scan_sound in Hscan as (Hr & Hfree & Hbelow & Hfs).
  unfold SD.open in H. simpl in H. rewrite Hfs, Hfree in H.
  destruct (SD.open_ok e); simpl in H; [|discriminate].
  simplify_eq. simpl. by rewrite <- recording_path_built, Hfs.
Qed.

(** X9: [create_new_recording] never opens a file that is already on the
    card: whenever it returns a name, /recordings/<name>.rec did not exist
    before the call and is an empty file after it, every other path is
    untouched, and the name is that of an index at or above the cursor with
    all indices between the cursor and it taken. *)
Theorem create_new_recording_fresh_file
    (e : SD.Env) (s s' : Storage) (m m' : SD.Medium) (name : string) :
  create_new_recording e s m = (Some name, s', m') →
  SD.fs m !! build_recording_path name = None
  ∧ SD.fs m' = <[build_recording_path name := SD.Reg []]> (SD.fs m)
  ∧ _state s = Idle ∧ _state s' = Recording
  ∧ _last_file_index s' = _last_file_index s
  ∧ ∃ i, _last_file_index s ≤ i < 10000
         ∧ name = recording_name_of i
         ∧ ∀ k, _last_file_index s ≤ k < i → taken m k.
Proof.
  unfold create_new_recording. intros H.
  destruct (_state s) eqn:Hst; simpl in H; try discriminate.
  destruct (scan _ _ m) as [[i|] m1] eqn:Hscan; [|discriminate].
  apply scan_sound in Hscan as (Hr & Hfree & Hbelow & Hfs).
  unfold SD.open in H. simpl in H. rewrite Hfs, Hfree in H.
  destruct (SD.open_ok e); simpl in H; [|discriminate].
  simplify_eq. simpl. rewrite <- recording_path_built, Hfs.
  split_and!; try done. exists i. split_and!; try done; lia.
Qed.

Lemma create_new_recording_fresh_file_witness :
  SD.fs (medium_of [("/recordings/00001.rec", SD.Reg [x01])])
    !! build_recording_path "00002" = None
  ∧ ∃ i, 1 ≤ i < 10000 ∧ "00002" = recording_name_of i.
Proof.
  destruct (create_new_recording_fresh_file good_card
              (store Idle None EmptyString 1)
              (create_new_recording good_card (store Idle None EmptyString 1)
                 (medium_of [("/recordings/00001.rec", SD.Reg [x01])])).1.2
              (medium_of [("/recordings/00001.rec", SD.Reg [x01])])
              (create_new_recording good_card (store Idle None EmptyString 1)
                 (medium_of [("/recordings/00001.rec", SD.Reg [x01])])).2
              "00002")
    as (Hnone & _ & _ & _ & _ & i & Hi & Hname & _).
  - vm_compute. reflexivity.
  - split; [exact Hnone|]. exists i. split; [exact Hi | exact Hname].
Defined.

(** X10: [create_new_recording] called in [Idle] on a card that refuses the
    open returns [nullptr] with the store in [Error] and no file changed.
    When a free index exists the error is [CanNotOpenFile], the handle is
    invalid and the current name is already that of the free index; when
    none exists the error is [TooManyFiles]. *)
Theorem create_new_recording_open_refused
    (e : SD.Env) (s : Storage) (m : SD.Medium) :
  _state s = Idle →
  SD.open_ok e = false →
  ∃ s' m',
    create_new_recording e s m = (None, s', m')
    ∧ _state s' = Error
    ∧ SD.fs m' = SD.fs m
    ∧ _last_file_index s' = _last_file_index s
    ∧ (∀ i, _last_file_index s ≤ i < 10000 → ¬ taken m i →
       (∀ k, _last_file_index s ≤ k < i → taken m k) →
       _error s' = CanNotOpenFile ∧ _current_file s' = None
       ∧ _current_recording_name s' = recording_name_of i)
    ∧ ((∀ i, _last_file_index s ≤ i < 10000 → taken m i) →
       _error s' = TooManyFiles).
Proof.
  intros Hst Hopen. unfold create_new_recording. rewrite Hst. simpl.
  destruct (scan _ _ m) as [[j|] m1] eqn:Hscan.
  - pose proof (scan_sound _ _ _ _ _ Hscan) as (Hr & Hfree & Hbelow & Hfs).
    unfold SD.open. simpl. rewrite Hfs, Hfree, Hopen. simpl.
    eexists _, _. split; [reflexivity|]. simpl.
    split; [done|]. split; [done|]. split; [done|]. split.
    + intros i Hi Hfreei Hbelowi.
      assert (i = j) as ->; [|done].
      destruct (Z.lt_trichotomy i j) as [Hlt|[Heq|Hgt]]; [|done|].
      * exfalso. apply Hfreei, Hbelow. lia.
      * exfalso. assert (taken m j) as [x Hx] by (apply Hbelowi; lia).
        congruence.
    + intros Hall. exfalso.
      assert (taken m j) as [x Hx] by (apply Hall; lia). congruence.
  - apply scan_none_sound in Hscan as [Hall Hfs].
    eexists _, _. split; [reflexivity|]. simpl.
    split; [done|]. split; [done|]. split; [done|]. split; [|done].
    intros i Hi Hfreei _. exfalso. apply Hfreei, Hall. lia.
Qed.

Lemma create_new_recording_open_refused_witness :
  ∃ s' m',
    create_new_recording bad_card (store Idle None EmptyString 0) (medium_of [])
    = (None, s', m')
    ∧ _state s' = Error
    ∧ _error s' = CanNotOpenFile ∧ _current_file s' = None
    ∧ _current_recording_name s' = recording_name_of 0.
Proof.
  destruct (create_new_recording_open_refused bad_card
              (store Idle None EmptyString 0) (medium_of []))
    as (s' & m' & Hrun & Hst & _ & _ & Hfree & _); [reflexivity..|].
  exists s', m'. split; [exact Hrun|]. split; [exact Hst|].
  apply (Hfree 0); simpl; [lia | | intros k Hk; lia].
  intros [x Hx]. vm_compute in Hx. discriminate Hx.
Defined.

(** ** What the operations do to the files *)

Lemma run_keeps_files
    (e : SD.Env) (op : Op) (s : Storage) (m : SD.Medium) (p : string) :
  is_Some (SD.fs m !! p) →
  (∀ name, op = RemoveRecording name → p ≠ build_recording_path name) →
  is_Some (SD.fs (run e op s m).2 !! p).
Proof.
  intros Hp Hop. destruct op.
  - op_cases. unfold SD.put. simpl.
    destruct (decide (p = "/recordings")) as [->|Hne].
    + by rewrite lookup_insert_eq.
    + by rewrite lookup_insert_ne.
  - op_cases.
  - specialize (Hop name eq_refl).
    op_cases; simpl; rewrite ?lookup_delete_ne by done; done.
  - cbn [run]. unfold create_new_recording.
    destruct (negb _); simpl; [done|].
    destruct (scan _ _ m) as [[j|] m1] eqn:Hscan; simpl.
    + apply scan_sound in Hscan as (_ & Hfree & _ & Hfs).
      unfold SD.open. simpl. rewrite Hfs, Hfree.
      destruct (SD.open_ok e); simpl; rewrite ?Hfs; [|done].
      destruct (decide (p = recording_path_of j)) as [->|Hne].
      * by rewrite lookup_insert_eq.
      * by rewrite lookup_insert_ne.
    + apply scan_none_sound in Hscan as [_ Hfs]. by rewrite Hfs.
  - op_cases; unfold SD.put; simpl;
      repeat match goal with
      | |- is_Some (<[?q := _]> _ !! p) =>
          destruct (decide (p = q)) as [->|?];
          [by rewrite lookup_insert_eq | rewrite lookup_insert_ne by done]
      end; done.
  - op_cases.
  - op_cases.
  - op_cases.
Qed.

(** X11: no operation other than [remove_recording] takes a path off the
    card, and [remove_recording] takes off at most the file of the name it
    is given; [list_recordings], [open_recording], [read_record] and
    [close_recording] change no file at all. *)
Theorem files_only_removed_by_remove
    (e : SD.Env) (op : Op) (s : Storage) (m : SD.Medium) (p : string) :
  (is_Some (SD.fs m !! p) →
   (∀ name, op = RemoveRecording name → p ≠ build_recording_path name) →
   is_Some (SD.fs (run e op s m).2 !! p))
  ∧ (match op with
     | ListRecordings | OpenRecording _ | ReadRecord _ _ | CloseRecording =>
         SD.fs (run e op s m).2 = SD.fs m
     | _ => True
     end).
Proof.
  split; [apply run_keeps_files|].
  destruct op; try done; op_cases.
Qed.

Lemma files_only_removed_by_remove_witness :
  is_Some (SD.fs (run good_card (RemoveRecording "00001")
                    (store Idle None EmptyString 2)
                    (medium_of [("/recordings/00000.rec", SD.Reg [x01]);
                                ("/recordings/00001.rec", SD.Reg [])])).2
             !! "/recordings/00000.rec").
Proof.
  apply (files_only_removed_by_remove good_card (RemoveRecording "00001")).
  - by eexists.
  - intros name Hname. injection Hname as <-. discriminate.
Defined.

Lemma run_all_keeps_files (ops : list (SD.Env * Op)) :
  ∀ (s : Storage) (m : SD.Medium) (p : string),
  Forall (λ eo, is_remove eo.2 = false) ops →
  is_Some (SD.fs m !! p) →
  is_Some (SD.fs (run_all ops s m).2 !! p).
Proof.
  induction ops as [|[e op] ops IH]; intros s m p Hops Hp; simpl; [done|].
  apply Forall_cons in Hops as [Hop Hops]. simpl in Hop.
  pose proof (run_keeps_files e op s m p Hp) as Hkeep.
  destruct (run e op s m) as [[r s1] m1]. simpl in Hkeep.
  apply IH; [done|]. apply Hkeep. intros name ->. discriminate.
Qed.

(** X12: a name handed out by [create_new_recording] is not handed out
    again, whatever operations follow, as long as none of them is a
    [remove_recording]: the second creation returns a different name. *)
Theorem recording_name_not_reused
    (e1 e2 : SD.Env) (ops : list (SD.Env * Op))
    (s s1 s3 : Storage) (m m1 m3 : SD.Medium) (name1 name2 : string) :
  create_new_recording e1 s m = (Some name1, s1, m1) →
  Forall (λ eo, is_remove eo.2 = false) ops →
  create_new_recording e2 (run_all ops s1 m1).1 (run_all ops s1 m1).2
  = (Some name2, s3, m3) →
  name1 ≠ name2.
Proof.
  intros H1 Hops H2 ->.
  apply create_new_recording_fresh in H1 as [_ Hfs1].
  apply create_new_recording_fresh in H2 as [Hnone _].
  pose proof (run_all_keeps_files ops s1 m1 (build_recording_path name2) Hops)
    as Hkeep.
  rewrite Hfs1, lookup_insert_eq in Hkeep.
  destruct Hkeep as [x Hx]; [by eexists|]. congruence.
Qed.

Lemma recording_name_not_reused_witness :
  (create_new_recording good_card (store Idle None EmptyString 0) (medium_of [])).1.1
  = Some "00000"
  ∧ "00000" ≠ "00001".
Proof.
  split; [vm_compute; reflexivity|].
  eapply (recording_name_not_reused good_card good_card
            [(good_card, WriteRecord [F32 x00 x00 x80 x3f] x01);
             (good_card, CloseRecording)]
            (store Idle None EmptyString 0) _ _ (medium_of []) _ _).
  - vm_compute. reflexivity.
  - repeat constructor.
  - vm_compute. reflexivity.
Defined.

(** ** Writing, continued *)

Lemma content_put_same (p : string) (c : list byte) (m : SD.Medium) :
  SD.content (SD.put p (SD.Reg c) m) p = Some c.
Proof. unfold SD.content, SD.put. simpl. by rewrite lookup_insert_eq. Qed.

Lemma content_put_other (p q : string) (n : SD.Node) (m : SD.Medium) :
  p ≠ q → SD.content (SD.put p n m) q = SD.content m q.
Proof. intros H. unfold SD.content, SD.put. simpl. by rewrite lookup_insert_ne. Qed.

(** The effect of [append] on the content of any regular file. *)
Lemma append_content (f : SD.File) (bs : list byte) (m : SD.Medium)
    (p : string) (c : list byte) :
  SD.content m p = Some c →
  ∃ extra,
    SD.content (SD.append f bs m).2 p = Some (c ++ extra)
    ∧ (extra = [] ∨ (extra = bs ∧ p = SD.f_path f
                     ∧ (SD.append f bs m).1 = length bs)).
Proof.
  intros Hc. unfold SD.append.
  destruct (SD.f_mode f); simpl.
  - exists []. rewrite app_nil_r. by split; [|left].
  - destruct (SD.content m (SD.f_path f)) as [c0|] eqn:Hc0; simpl.
    + destruct (decide (SD.f_path f = p)) as [<-|Hne].
      * exists bs. rewrite content_put_same. simplify_eq.
        split; [done|]. by right.
      * exists []. rewrite content_put_other, app_nil_r by done.
        by split; [|left].
    + exists []. rewrite app_nil_r. by split; [|left].
Qed.

Lemma append_other (f : SD.File) (bs : list byte) (m : SD.Medium) (p : string) :
  p ≠ SD.f_path f → SD.fs (SD.append f bs m).2 !! p = SD.fs m !! p.
Proof.
  intros Hp. unfold SD.append.
  destruct (SD.f_mode f), (SD.content m (SD.f_path f)); simpl; try done.
  by rewrite lookup_insert_ne.
Qed.

Lemma append_count (f : SD.File) (bs : list byte) (m : SD.Medium) :
  (SD.append f bs m).1 = 0%nat ∨ (SD.append f bs m).1 = length bs.
Proof.
  unfold SD.append.
  destruct (SD.f_mode f), (SD.content m (SD.f_path f)); simpl; auto.
Qed.

(** X13: [write_record] called in [Recording] with a length other than 0
    either returns [true] and leaves the store exactly as it was, or returns
    [false] and leaves it in [Error] with [FileSystemError] and everything
    else, the handle included, as it was.  It only ever appends: the bytes
    that a file held are still its first bytes, at most [1 + 4 * length]
    bytes are added, and no path other than that of the handle changes. *)
Theorem write_record_outcome
    (e : SD.Env) (data : list float32) (length : byte)
    (s : Storage) (m : SD.Medium) :
  _state s = Recording →
  int_of_byte length ≠ 0 →
  ∃ ok s' m',
    write_record e data length s m = (ok, s', m')
    ∧ s' = (if ok then s else set_error FileSystemError s)
    ∧ (∀ p c, SD.content m p = Some c →
       ∃ extra, SD.content m' p = Some (c ++ extra)
                ∧ (List.length extra ≤ 1 + byte_count (int_of_byte length))%nat)
    ∧ (∀ p, (∀ f, _current_file s = Some f → SD.f_path f ≠ p) →
       SD.fs m' !! p = SD.fs m !! p).
Proof.
  intros Hst Hlen. unfold write_record. rewrite Hst. simpl.
  destruct (int_of_byte length =? 0) eqn:E0; [lia|].
  destruct (_current_file s) as [f|] eqn:Hf.
  2:{ eexists _, _, _. split; [reflexivity|]. split; [done|]. split; [|done].
      intros p c Hc. exists []. rewrite app_nil_r. split; [done|simpl; lia]. }
  set (buf := take (byte_count (int_of_byte length)) (bytes_of_floats data)).
  assert (List.length buf ≤ byte_count (int_of_byte length))%nat as Hbuf
    by (unfold buf; rewrite length_take; lia).
  unfold SD.write_byte, SD.write.
  set (m0 := SD.log (SD.CWriteByte (SD.f_path f) length) m).
  destruct (SD.write_byte_ok e); simpl.
  2:{ eexists _, _, _. split; [reflexivity|]. split; [done|]. split; [|done].
      intros p c Hc. exists []. rewrite app_nil_r. split; [done|simpl; lia]. }
  destruct (SD.append f [length] m0) as [n1 m1] eqn:Ha1.
  assert (∀ p c, SD.content m p = Some c →
            ∃ x, SD.content m1 p = Some (c ++ x) ∧ (List.length x ≤ 1)%nat) as Hc1.
  { intros p c Hc.
    destruct (append_content f [length] m0 p c Hc) as (x & Hx & Hcase).
    rewrite Ha1 in Hx. exists x. split; [done|].
    destruct Hcase as [->|(-> & _)]; simpl; lia. }
  assert (∀ p, p ≠ SD.f_path f → SD.fs m1 !! p = SD.fs m !! p) as Ho1.
  { intros p Hp. pose proof (append_other f [length] m0 p Hp) as H.
    by rewrite Ha1 in H. }
  destruct (n1 =? 0)%nat.
  { eexists _, _, _. split; [reflexivity|]. split; [done|]. split.
    - intros p c Hc. destruct (Hc1 p c Hc) as (x & Hx & Hlx).
      exists x. split; [done|lia].
    - intros p Hp. apply Ho1. intros ->. by apply (Hp f). }
  set (m2 := SD.log (SD.CWrite (SD.f_path f) (List.length buf)) m1).
  destruct (SD.append f (take (SD.write_max e) buf) m2) as [n2 m3] eqn:Ha2.
  assert (∀ p c, SD.content m p = Some c →
            ∃ x, SD.content m3 p = Some (c ++ x)
                 ∧ (List.length x ≤ 1 + byte_count (int_of_byte length))%nat) as Hc3.
  { intros p c Hc. destruct (Hc1 p c Hc) as (x & Hx & Hlx).
    destruct (append_content f (take (SD.write_max e) buf) m2 p (c ++ x) Hx)
      as (y & Hy & Hcase).
    rewrite Ha2 in Hy. exists (x ++ y). rewrite app_assoc. split; [done|].
    rewrite length_app.
    destruct Hcase as [->|(-> & _)]; simpl; [lia|]. rewrite length_take. lia. }
  assert (∀ p, p ≠ SD.f_path f → SD.fs m3 !! p = SD.fs m !! p) as Ho3.
  { intros p Hp.
    pose proof (append_other f (take (SD.write_max e) buf) m2 p Hp) as H.
    rewrite Ha2 in H. simpl in H. rewrite H. by apply Ho1. }
  destruct (n2 =? 0)%nat;
    (eexists _, _, _; split; [reflexivity|]; split; [done|]; split; [done|]);
    intros p Hp; apply Ho3; intros ->; by apply (Hp f).
Qed.

Lemma write_record_outcome_witness :
  ∃ ok s' m',
    write_record bad_card [F32 x00 x00 x80 x3f] x01
      (store Recording (Some (write_handle "00000")) "00000" 0)
      (medium_of [("/recordings/00000.rec", SD.Reg [x07])]) = (ok, s', m')
    ∧ s' = (if ok
            then store Recording (Some (write_handle "00000")) "00000" 0
            else set_error FileSystemError
                   (store Recording (Some (write_handle "00000")) "00000" 0))
    ∧ ∃ extra, SD.content m' "/recordings/00000.rec" = Some ([x07] ++ extra).
Proof.
  destruct (write_record_outcome bad_card [F32 x00 x00 x80 x3f] x01
              (store Recording (Some (write_handle "00000")) "00000" 0)
              (medium_of [("/recordings/00000.rec", SD.Reg [x07])]))
    as (ok & s' & m' & Hrun & Hs & Hc & _); [reflexivity | discriminate |].
  exists ok, s', m'. split; [exact Hrun|]. split; [exact Hs|].
  destruct (Hc "/recordings/00000.rec" [x07]) as (extra & Hx & _);
    [reflexivity|]. by exists extra.
Defined.

(** X14: [write_record] tests the number of bytes the card took only for
    zero: when the card takes the length byte and some, but not all, of the
    payload, the call still returns [true] with the store unchanged, and the
    file ends with the length byte and only the bytes that were taken. *)
Theorem write_record_short_write
    (e : SD.Env) (r : list float32) (s : Storage) (m : SD.Medium)
    (f : SD.File) (c : list byte) :
  _state s = Recording → _current_file s = Some f →
  SD.f_mode f = SD.FILE_WRITE →
  SD.content m (SD.f_path f) = Some c →
  (1 ≤ length r ≤ 255)%nat →
  SD.write_byte_ok e = true →
  (0 < SD.write_max e < 4 * length r)%nat →
  ∃ m',
    write_record e r (uint8_of_nat (length r)) s m = (true, s, m')
    ∧ SD.content m' (SD.f_path f)
      = Some (c ++ uint8_of_nat (length r)
                :: take (SD.write_max e) (bytes_of_floats r))
    ∧ (length (take (SD.write_max e) (bytes_of_floats r))
       < length (bytes_of_floats r))%nat.
Proof.
  intros Hst Hf Hmode Hc Hlen Hwb Hmax.
  unfold write_record, SD.write_byte, SD.write, SD.append.
  rewrite Hst, Hf, Hwb, Hmode. simpl.
  rewrite int_of_uint8_of_nat by lia.
  destruct (Z.of_nat (length r) =? 0) eqn:E0; [lia|].
  change (SD.content (SD.log ?c1 m) ?p) with (SD.content m p).
  rewrite Hc. simpl.
  rewrite byte_count_of_nat.
  rewrite (take_ge (bytes_of_floats r) (4 * length r))
    by (rewrite length_bytes_of_floats; lia).
  unfold SD.content at 1. simpl. rewrite lookup_insert_eq.
  assert (length (take (SD.write_max e) (bytes_of_floats r)) = SD.write_max e)
    as Htake by (rewrite length_take, length_bytes_of_floats; lia).
  rewrite Htake.
  destruct (SD.write_max e =? 0)%nat eqn:E1; [apply Nat.eqb_eq in E1; lia|].
  eexists. split; [reflexivity|]. split.
  - unfold SD.content. simpl. rewrite lookup_insert_eq. by rewrite <- app_assoc.
  - rewrite length_bytes_of_floats. lia.
Qed.

Lemma write_record_short_write_witness :
  ∃ m',
    write_record
      {| SD.begin_ok := true; SD.mkdir_ok := true; SD.remove_ok := true;
         SD.open_ok := true; SD.write_byte_ok := true; SD.write_max := 3;
         SD.peek_ok := true; SD.read_byte_ok := true; SD.read_max := 1020 |}
      [F32 x00 x00 x80 x3f; F32 x00 x00 x00 x40] x02
      (store Recording (Some (write_handle "00000")) "00000" 0)
      (medium_of [("/recordings/00000.rec", SD.Reg [])])
    = (true, store Recording (Some (write_handle "00000")) "00000" 0, m')
    ∧ SD.content m' "/recordings/00000.rec" = Some [x02; x00; x00; x80].
Proof.
  destruct (write_record_short_write
    {| SD.begin_ok := true; SD.mkdir_ok := true; SD.remove_ok := true;
       SD.open_ok := true; SD.write_byte_ok := true; SD.write_max := 3;
       SD.peek_ok := true; SD.read_byte_ok := true; SD.read_max := 1020 |}
    [F32 x00 x00 x80 x3f; F32 x00 x00 x00 x40]
    (store Recording (Some (write_handle "00000")) "00000" 0)
    (medium_of [("/recordings/00000.rec", SD.Reg [])])
    (write_handle "00000") [])
    as (m' & Hrun & Hc & _); try reflexivity; simpl; try lia.
  exists m'. split; [exact Hrun | exact Hc].
Defined.

(** ** Reading, continued *)

Lemma fill_nothing (data : list float32) : fill data [] = data.
Proof.
  unfold fill. simpl. rewrite drop_0.
  rewrite <- (app_nil_r (bytes_of_floats data)), floats_of_bytes_app.
  apply app_nil_r.
Qed.

(** X15: the result of [read_record], in any state.  The returned count lies
    between -255 and 255 and no file changes.  A positive count is below the
    capacity and means that the store was and is in [Reading] with its
    error untouched; a negative count means that nothing changed and that
    the capacity is at most the pending length; the store changes state
    only by going to [Error] with [FileSystemError], and then 0 is
    returned.  The bytes copied to the caller's array number at most four
    times the returned count, so never more than [4 * (capacity - 1)]. *)
Theorem read_record_result
    (e : SD.Env) (data : list float32) (capacity : byte)
    (s : Storage) (m : SD.Medium) :
  ∃ n data' s' m' got,
    read_record e data capacity s m = (n, data', s', m')
    ∧ SD.fs m' = SD.fs m
    ∧ -255 ≤ n ≤ 255
    ∧ data' = fill data got
    ∧ (length got ≤ 4 * Z.to_nat n)%nat
    ∧ (0 < n →
       n < int_of_byte capacity ∧ _state s = Reading
       ∧ _state s' = Reading ∧ _error s' = _error s)
    ∧ (n < 0 → s' = s ∧ int_of_byte capacity ≤ - n)
    ∧ (_state s' ≠ _state s →
       n = 0 ∧ _state s' = Error ∧ _error s' = FileSystemError)
    ∧ _last_file_index s' = _last_file_index s
    ∧ _current_recording_name s' = _current_recording_name s.
Proof.
  assert (∀ m1, SD.fs m1 = SD.fs m →
    ∃ n data' s' m' got,
      (0, data, s, m1) = (n, data', s', m')
      ∧ SD.fs m' = SD.fs m ∧ -255 ≤ n ≤ 255 ∧ data' = fill data got
      ∧ (length got ≤ 4 * Z.to_nat n)%nat
      ∧ (0 < n → n < int_of_byte capacity ∧ _state s = Reading
                 ∧ _state s' = Reading ∧ _error s' = _error s)
      ∧ (n < 0 → s' = s ∧ int_of_byte capacity ≤ - n)
      ∧ (_state s' ≠ _state s →
         n = 0 ∧ _state s' = Error ∧ _error s' = FileSystemError)
      ∧ _last_file_index s' = _last_file_index s
      ∧ _current_recording_name s' = _current_recording_name s) as Hnone.
  { intros m1 Hm1. exists 0, data, s, m1, [].
    rewrite fill_nothing. split_and!; try done; simpl; lia. }
  unfold read_record.
  destruct (_state s) eqn:Hst; simpl; try (by apply Hnone).
  destruct (_current_file s) as [f|] eqn:Hf; [|by apply Hnone].
  unfold SD.peek.
  destruct (SD.pending f m) as [|b rest] eqn:Hp; simpl; [by apply Hnone|].
  destruct (SD.peek_ok e); simpl; [|by apply Hnone].
  pose proof (int_of_byte_range b) as Hb.
  destruct (int_of_byte b =? -1) eqn:E1; [lia|].
  rewrite Z.geb_leb.
  destruct (int_of_byte capacity <=? int_of_byte b) eqn:E2.
  { apply Z.leb_le in E2. eexists _, _, _, _, []. split; [reflexivity|].
    rewrite fill_nothing. simpl. rewrite Hst.
    split_and!; try done; try lia. intros _. split; [done|lia]. }
  apply Z.leb_gt in E2.
  unfold SD.read_byte.
  change (SD.pending f (SD.log (SD.CPeek (SD.f_path f)) m)) with (SD.pending f m).
  rewrite Hp.
  destruct (SD.read_byte_ok e); simpl.
  2:{ eexists _, _, _, _, []. split; [reflexivity|].
      rewrite fill_nothing. simpl. split_and!; try done; lia. }
  rewrite E1. unfold SD.read.
  match goal with |- context [take ?k ?l] => set (got := take k l) end.
  assert (length got ≤ byte_count (int_of_byte b))%nat as Hgot
    by (unfold got; rewrite length_take; lia).
  destruct (length got =? 0)%nat eqn:E3.
  - apply Nat.eqb_eq in E3. eexists _, _, _, _, got. split; [reflexivity|].
    simpl. split_and!; try done; lia.
  - apply Nat.eqb_neq in E3. eexists _, _, _, _, got. split; [reflexivity|].
    simpl. rewrite Hst. unfold byte_count in Hgot.
    split_and!; try done; try lia.
Qed.

(** X16: a pending record whose length byte is 0 is not an empty record for
    [read_record]: with a capacity of at least 1, on a card that serves the
    reads, the length byte is consumed, 0 is returned and the store goes to
    [Error] with [FileSystemError]. *)
Theorem read_record_zero_length
    (e : SD.Env) (data : list float32) (capacity : byte)
    (s : Storage) (m : SD.Medium) (f : SD.File) (b : byte) (rest : list byte) :
  _state s = Reading → _current_file s = Some f →
  SD.pending f m = b :: rest →
  int_of_byte b = 0 →
  1 ≤ int_of_byte capacity →
  SD.peek_ok e = true → SD.read_byte_ok e = true →
  ∃ s' m',
    read_record e data capacity s m = (0, data, s', m')
    ∧ _state s' = Error ∧ _error s' = FileSystemError
    ∧ _current_file s' = Some (SD.advance 1 f).
Proof.
  intros Hst Hf Hp Hb Hcap Hpeek Hread.
  unfold read_record, SD.peek, SD.read_byte, SD.read.
  rewrite Hst, Hf, Hp, Hpeek. simpl. rewrite Hb. simpl.
  rewrite Z.geb_leb.
  destruct (int_of_byte capacity <=? 0) eqn:E; [lia|].
  change (SD.pending f (SD.log (SD.CPeek (SD.f_path f)) m)) with (SD.pending f m).
  rewrite Hp, Hread, Hb. simpl. rewrite fill_nothing.
  eexists _, _. split; [reflexivity|]. simpl.
  split_and!; try done. unfold SD.advance. simpl. f_equal. f_equal. lia.
Qed.

Lemma read_record_zero_length_witness :
  ∃ s' m',
    read_record good_card (replicate 3 (F32 x00 x00 x00 x00)) x03
      (store Reading (Some (read_handle "00000" 0)) EmptyString 1)
      (medium_of [("/recordings/00000.rec", SD.Reg [x00; x01])])
    = (0, replicate 3 (F32 x00 x00 x00 x00), s', m')
    ∧ _state s' = Error ∧ _error s' = FileSystemError
    ∧ _current_file s' = Some (SD.advance 1 (read_handle "00000" 0)).
Proof.
  apply (read_record_zero_length good_card _ x03 _ _ (read_handle "00000" 0) x00 [x01]);
    try reflexivity. vm_compute. discriminate.
Defined.

(** X17: [read_record] tests the number of bytes delivered only for zero: a
    record whose payload is cut off by the end of the file, with at least
    one byte of it present, is returned with its full count; the store stays
    in [Reading], the handle is at the end of the file, and only the bytes
    present have been copied. *)
Theorem read_record_truncated
    (e : SD.Env) (data : list float32) (capacity : byte)
    (s : Storage) (m : SD.Medium) (f : SD.File) (b : byte) (partial : list byte) :
  _state s = Reading → _current_file s = Some f →
  SD.pending f m = b :: partial →
  (0 < length partial < byte_count (int_of_byte b))%nat →
  int_of_byte b < int_of_byte capacity →
  healthy e →
  ∃ s' m' f',
    read_record e data capacity s m = (int_of_byte b, fill data partial, s', m')
    ∧ _state s' = Reading ∧ _error s' = _error s
    ∧ _current_file s' = Some f' ∧ SD.pending f' m' = [].
Proof.
  intros Hst Hf Hp Hlen Hcap (_ & _ & Hpeek & Hread & Hmax).
  unfold read_record, SD.peek, SD.read_byte, SD.read.
  rewrite Hst, Hf, Hp, Hpeek. simpl.
  pose proof (int_of_byte_range b) as Hb.
  destruct (int_of_byte b =? -1) eqn:E1; [lia|].
  rewrite Z.geb_leb.
  destruct (int_of_byte capacity <=? int_of_byte b) eqn:E2; [lia|].
  change (SD.pending f (SD.log (SD.CPeek (SD.f_path f)) m)) with (SD.pending f m).
  rewrite Hp, Hread, E1.
  match goal with |- context [SD.pending (SD.advance 1 f) ?m1] =>
    change (SD.pending (SD.advance 1 f) m1) with (SD.pending (SD.advance 1 f) m)
  end.
  rewrite pending_advance, Hp. simpl. rewrite drop_0.
  rewrite take_ge by (unfold byte_count in *; lia).
  destruct (length partial =? 0)%nat eqn:E3; [apply Nat.eqb_eq in E3; lia|].
  eexists _, _, _. split; [reflexivity|]. simpl.
  split_and!; try done.
  rewrite pending_advance.
  match goal with |- context [SD.pending (SD.advance 1 f) ?m1] =>
    change (SD.pending (SD.advance 1 f) m1) with (SD.pending (SD.advance 1 f) m)
  end.
  rewrite pending_advance, Hp. simpl. rewrite drop_0. apply drop_all.
Qed.

Lemma read_record_truncated_witness :
  ∃ s' m' f',
    read_record good_card (replicate 3 (F32 x00 x00 x00 x00)) x03
      (store Reading (Some (read_handle "00000" 0)) EmptyString 1)
      (medium_of [("/recordings/00000.rec", SD.Reg [x02; x00; x00; x80; x3f; x00])])
    = (int_of_byte x02,
       fill (replicate 3 (F32 x00 x00 x00 x00)) [x00; x00; x80; x3f; x00], s', m')
    ∧ _state s' = Reading
    ∧ _error s' = _error (store Reading (Some (read_handle "00000" 0)) EmptyString 1)
    ∧ _current_file s' = Some f' ∧ SD.pending f' m' = [].
Proof.
  apply (read_record_truncated good_card _ x03 _ _ (read_handle "00000" 0) x02
           [x00; x00; x80; x3f; x00]); try reflexivity.
  - vm_compute. lia.
  - unfold healthy. simpl. repeat split; lia.
Defined.

(** ** Diagnostics *)

(** X18: the diagnostic names of the states and of the error codes are
    pairwise different, and none of them is one of the fallback strings
    that follow the [switch] statements. *)
Theorem diagnostic_names_distinct :
  (∀ a b, storage_error_to_str a = storage_error_to_str b → a = b)
  ∧ (∀ a b, storage_state_to_str a = storage_state_to_str b → a = b)
  ∧ (∀ a, storage_error_to_str a ≠ "<Error>")
  ∧ (∀ a, storage_state_to_str a ≠ "<State>").
Proof.
  split_and!.
  - intros [] []; simpl; intros H; try done; discriminate H.
  - intros [] []; simpl; intros H; try done; discriminate H.
  - intros []; discriminate.
  - intros []; discriminate.
Qed.

(** ** Opening for read, continued *)

(** X19: [open_recording] called in [Idle] returns [true] exactly when the
    path /recordings/<name>.rec is on the card and the driver opens it; the
    store is then in [Reading] with a read handle at the start of that
    file.  In every case the error code, the cursor, the current name and
    the files are unchanged; when the path is there but the open fails, the
    previous handle is replaced by the invalid one. *)
Theorem open_recording_outcome
    (e : SD.Env) (name : string) (s : Storage) (m : SD.Medium) :
  _state s = Idle →
  ∃ ok s' m',
    open_recording e name s m = (ok, s', m')
    ∧ (ok = true ↔
       is_Some (SD.fs m !! build_recording_path name) ∧ SD.open_ok e = true)
    ∧ (ok = true →
       _state s' = Reading ∧ _current_file s' = Some (read_handle name 0))
    ∧ (ok = false → _state s' = Idle)
    ∧ (ok = false → is_Some (SD.fs m !! build_recording_path name) →
       _current_file s' = None)
    ∧ (SD.fs m !! build_recording_path name = None → s' = s)
    ∧ _error s' = _error s
    ∧ _last_file_index s' = _last_file_index s
    ∧ _current_recording_name s' = _current_recording_name s
    ∧ SD.fs m' = SD.fs m.
Proof.
  intros Hst. unfold open_recording, SD.exists_, SD.open. rewrite Hst. simpl.
  destruct (SD.fs m !! build_recording_path name) as [n|] eqn:Hfile.
  - rewrite bool_decide_eq_true_2 by done.
    destruct (SD.open_ok e) eqn:Hopen; simpl;
      eexists _, _, _; (split; [reflexivity|]); simpl;
      split_and!; try done; try (split; [done | by intros [_ ?]]).
  - rewrite bool_decide_eq_false_2 by (by intros [? ?]).
    eexists _, _, _. split; [reflexivity|]. simpl. rewrite Hst.
    split_and!; try done; try (split; [done | by intros [[? ?] _]]).
    all: try (by intros _ [? ?]).
Qed.

Lemma open_recording_outcome_witness :
  ∃ s' m',
    open_recording good_card "00000" (store Idle None EmptyString 1)
      (medium_of [("/recordings/00000.rec", SD.Reg [x01])]) = (true, s', m')
    ∧ _state s' = Reading ∧ _current_file s' = Some (read_handle "00000" 0).
Proof.
  destruct (open_recording_outcome good_card "00000" (store Idle None EmptyString 1)
              (medium_of [("/recordings/00000.rec", SD.Reg [x01])]))
    as (ok & s' & m' & Hrun & Hiff & Hok & _); [reflexivity|].
  assert (ok = true) as -> by (apply Hiff; split; [by eexists | reflexivity]).
  exists s', m'. split; [exact Hrun|]. by apply Hok.
Defined.

(** ** Instances of the unconditional statements *)

Lemma init_outcome_witness :
  ∃ s' m',
    init good_card (set_error CanNotInitialize (store Error None EmptyString 0))
      {| SD.fs := ∅; SD.calls := [] |} = (true, s', m')
    ∧ _state s' = Idle ∧ _error s' = CanNotInitialize
    ∧ is_Some (SD.fs m' !! "/recordings").
Proof.
  destruct (init_outcome good_card
              (set_error CanNotInitialize (store Error None EmptyString 0))
              {| SD.fs := ∅; SD.calls := [] |})
    as (ok & s' & m' & Hrun & Hiff & Hok & _).
  assert (ok = true) as -> by (apply Hiff; split; [reflexivity | by right]).
  exists s', m'. split; [exact Hrun|]. by apply Hok.
Defined.

Lemma clear_error_outcome_witness :
  ∃ s' m',
    clear_error bad_card (store Recording (Some (write_handle "00000")) "00000" 3)
      (medium_of []) = (false, s', m')
    ∧ _state s' = Error ∧ _error s' = CanNotInitialize
    ∧ _current_file s' = Some (write_handle "00000")
    ∧ _last_file_index s' = 3.
Proof.
  destruct (clear_error_outcome bad_card
              (store Recording (Some (write_handle "00000")) "00000" 3)
              (medium_of []))
    as (ok & s' & m' & Hrun & Hok & _ & _ & Hfail & Hfile & _ & Hidx).
  assert (ok = false) as -> by (rewrite Hok; reflexivity).
  exists s', m'. split; [exact Hrun|].
  destruct (Hfail eq_refl) as [Hst Herr]. by split_and!.
Defined.

Lemma read_record_result_witness :
  ∃ n,
    (read_record good_card (replicate 3 (F32 x00 x00 x00 x00)) x03
       (store Reading (Some (read_handle "00000" 0)) EmptyString 1)
       (medium_of [("/recordings/00000.rec", SD.Reg [x01; x00; x00; x80; x3f])])).1.1.1
    = n
    ∧ -255 ≤ n ≤ 255.
Proof.
  destruct (read_record_result good_card (replicate 3 (F32 x00 x00 x00 x00)) x03
              (store Reading (Some (read_handle "00000" 0)) EmptyString 1)
              (medium_of [("/recordings/00000.rec",
                           SD.Reg [x01; x00; x00; x80; x3f])]))
    as (n & data' & s' & m' & got & Hrun & _ & Hrange & _).
  exists n. rewrite Hrun. split; [reflexivity | exact Hrange].
Defined.
